(** * databank.image_data: the DICOM file walker and the series aggregator

    A shallow embedding of [src/databank/image_data.py] and the properties
    of its two functions, [walk_image_data] and [report_image_data].

    Python objects are modelled as follows.
    - Decoded DICOM values are [value]s: hashable atoms (strings, integers,
      dates, times) and sequences of atoms.
    - The dictionaries the code iterates over ([for x in metadata]) keep
      their insertion order: they are association lists ([odict]).  The
      dictionaries the code only indexes ([series_dict], a [Counter], the
      image table of a [Series]) are [gmap]s.
    - Exceptions are values of [exn]; a statement that raises stops the
      enclosing function, but the objects mutated before the [raise] stay
      mutated, so the monad of the aggregator's loop body returns the frame
      together with the outcome.
    - A generator is a finite resumption ([gen]): a sequence of log entries
      and yielded pairs ended by a normal stop or by an exception. *)

From Stdlib Require Import ZArith String List.
From stdpp Require Import base option list countable strings gmap.

#[local] Open Scope string_scope.
#[local] Open Scope Z_scope.

(** ** Exceptions *)

Inductive exn : Type :=
| KeyError (key : string)
| NameError (name : string)
| UnboundLocalError (name : string)
| AttributeError (msg : string)
| TypeError (msg : string)
| IOError (msg : string)
| InvalidDicomError (msg : string)
| OtherError (cls msg : string).

Inductive result (A : Type) : Type :=
| Ok (a : A)
| Raise (e : exn).
Arguments Ok {A} a.
Arguments Raise {A} e.

#[global] Instance exn_eq_dec : EqDecision exn.
Proof. solve_decision. Defined.

(** ** Python values *)

Module Py.

(** [datetime.date], [datetime.time] and [datetime.datetime] (naive). *)
Record date : Type := Date { year : Z; month : Z; day : Z }.
Record time : Type :=
  Time { hour : Z; minute : Z; second : Z; microsecond : Z }.
Record datetime : Type := DateTime { dt_date : date; dt_time : time }.

(** Hashable scalar values.  [AObj] stands for an object of any other
    class (a module, a function, a class), hashed by identity. *)
Inductive atom : Type :=
| AStr (s : string)
| AInt (n : Z)
| ADate (d : date)
| ATime (t : time)
| ADateTime (t : datetime)
| AObj (name : string).

(** A decoded value: an atom or a (hashable) sequence of atoms. *)
Inductive value : Type :=
| VAtom (a : atom)
| VSeq (items : list atom).

#[global] Instance date_eq_dec : EqDecision date.
Proof. solve_decision. Defined.
#[global] Instance time_eq_dec : EqDecision time.
Proof. solve_decision. Defined.
#[global] Instance datetime_eq_dec : EqDecision datetime.
Proof. solve_decision. Defined.
#[global] Instance atom_eq_dec : EqDecision atom.
Proof. solve_decision. Defined.
#[global] Instance value_eq_dec : EqDecision value.
Proof. solve_decision. Defined.

Definition atom_code : Type :=
  string + Z + (Z * Z * Z) + (Z * Z * Z * Z)
  + ((Z * Z * Z) * (Z * Z * Z * Z)) + string.

Definition atom_enc (a : atom) : atom_code :=
  match a with
  | AStr s => inl (inl (inl (inl (inl s))))
  | AInt n => inl (inl (inl (inl (inr n))))
  | ADate (Date y m d) => inl (inl (inl (inr (y, m, d))))
  | ATime (Time h mi s us) => inl (inl (inr (h, mi, s, us)))
  | ADateTime (DateTime (Date y m d) (Time h mi s us)) =>
      inl (inr ((y, m, d), (h, mi, s, us)))
  | AObj name => inr name
  end.

Definition atom_dec (x : atom_code) : atom :=
  match x with
  | inl (inl (inl (inl (inl s)))) => AStr s
  | inl (inl (inl (inl (inr n)))) => AInt n
  | inl (inl (inl (inr (y, m, d)))) => ADate (Date y m d)
  | inl (inl (inr (h, mi, s, us))) => ATime (Time h mi s us)
  | inl (inr ((y, m, d), (h, mi, s, us))) =>
      ADateTime (DateTime (Date y m d) (Time h mi s us))
  | inr name => AObj name
  end.

#[global] Instance atom_countable : Countable atom.
Proof.
  apply (inj_countable' atom_enc atom_dec).
  intros [s|n|[y m d]|[h mi s us]|[[y m d] [h mi s us]]|name];
    reflexivity.
Defined.

Definition value_enc (v : value) : atom + list atom :=
  match v with VAtom a => inl a | VSeq l => inr l end.

Definition value_dec (x : atom + list atom) : value :=
  match x with inl a => VAtom a | inr l => VSeq l end.

#[global] Instance value_countable : Countable value.
Proof.
  apply (inj_countable' value_enc value_dec).
  intros [a|l]; reflexivity.
Defined.

Definition VStr (s : string) : value := VAtom (AStr s).
Definition VInt (n : Z) : value := VAtom (AInt n).
Definition VDate (d : date) : value := VAtom (ADate d).
Definition VTime (t : time) : value := VAtom (ATime t).

(** The [datetime.date] part of an object of class [date] or of its
    subclass [datetime]. *)
Definition as_date (v : value) : option date :=
  match v with
  | VAtom (ADate d) => Some d
  | VAtom (ADateTime t) => Some (dt_date t)
  | _ => None
  end.

(** [datetime.datetime.combine(d, t)]: both arguments must be of the
    right class. *)
Definition datetime_combine (d t : value) : result datetime :=
  match as_date d, t with
  | Some d', VAtom (ATime t') => Ok (DateTime d' t')
  | Some _, _ =>
      Raise (TypeError "combine() argument 2 must be datetime.time")
  | None, _ => Raise (TypeError "combine() argument 1 must be datetime.date")
  end.

(** [datetime.datetime(d.year, d.month, d.day)]: midnight of [d]; an
    object without a [year] attribute raises on the first access. *)
Definition datetime_of_ymd (d : value) : result datetime :=
  match d with
  | VAtom (ADate d') =>
      Ok (DateTime (Date (year d') (month d') (day d')) (Time 0 0 0 0))
  | VAtom (ADateTime t) =>
      Ok (DateTime (Date (year (dt_date t)) (month (dt_date t))
                         (day (dt_date t))) (Time 0 0 0 0))
  | VAtom (ATime _) =>
      Raise (AttributeError "'datetime.time' object has no attribute 'year'")
  | VAtom (AStr _) =>
      Raise (AttributeError "'str' object has no attribute 'year'")
  | VAtom (AInt _) =>
      Raise (AttributeError "'int' object has no attribute 'year'")
  | VAtom (AObj _) =>
      Raise (AttributeError "object has no attribute 'year'")
  | VSeq _ => Raise (AttributeError "'tuple' object has no attribute 'year'")
  end.

(** Comparison of naive datetimes is lexicographic on
    (year, month, day, hour, minute, second, microsecond). *)
Definition dt_fields (t : datetime) : list Z :=
  [ year (dt_date t); month (dt_date t); day (dt_date t);
    hour (dt_time t); minute (dt_time t); second (dt_time t);
    microsecond (dt_time t) ].

Fixpoint lex_compare (a b : list Z) : comparison :=
  match a, b with
  | [], [] => Eq
  | [], _ :: _ => Lt
  | _ :: _, [] => Gt
  | x :: a', y :: b' =>
      match Z.compare x y with
      | Eq => lex_compare a' b'
      | c => c
      end
  end.

Definition datetime_compare (a b : datetime) : comparison :=
  lex_compare (dt_fields a) (dt_fields b).

Definition datetime_ltb (a b : datetime) : bool :=
  match datetime_compare a b with Lt => true | _ => false end.
Definition datetime_gtb (a b : datetime) : bool :=
  match datetime_compare a b with Gt => true | _ => false end.
(** [a <= b] on datetimes. *)
Definition datetime_le (a b : datetime) : Prop :=
  datetime_compare a b <> Gt.

(** Iterating a value ([x for x in v]): a sequence gives its items, a
    string its characters, anything else is not iterable. *)
Fixpoint chars (s : string) : list value :=
  match s with
  | EmptyString => []
  | String c s' => VStr (String c EmptyString) :: chars s'
  end.

Definition iterate (v : value) : result (list value) :=
  match v with
  | VSeq l => Ok (map VAtom l)
  | VAtom (AStr s) => Ok (chars s)
  | VAtom (AInt _) => Raise (TypeError "'int' object is not iterable")
  | VAtom (ADate _) =>
      Raise (TypeError "'datetime.date' object is not iterable")
  | VAtom (ATime _) =>
      Raise (TypeError "'datetime.time' object is not iterable")
  | VAtom (ADateTime _) =>
      Raise (TypeError "'datetime.datetime' object is not iterable")
  | VAtom (AObj _) => Raise (TypeError "object is not iterable")
  end.

End Py.
Export Py.

(** ** Insertion-ordered dictionaries with string keys *)

Module ODict.

Definition odict (V : Type) : Type := list (string * V).

Section Ops.
Context {V : Type}.

Fixpoint oget (k : string) (d : odict V) : option V :=
  match d with
  | [] => None
  | (k', v) :: d' => if decide (k' = k) then Some v else oget k d'
  end.

Definition ocontains (k : string) (d : odict V) : bool :=
  match oget k d with Some _ => true | None => false end.

(** [d[k] = v]: an existing key keeps its position, a new key goes last. *)
Fixpoint oset (k : string) (v : V) (d : odict V) : odict V :=
  match d with
  | [] => [(k, v)]
  | (k', v') :: d' =>
      if decide (k' = k) then (k, v) :: d' else (k', v') :: oset k v d'
  end.

Definition okeys (d : odict V) : list string := map fst d.
End Ops.

End ODict.
Export ODict.

(** ** Names of the module

    The names bound at top level of [image_data.py] by its imports and
    definitions.  [from . dicom import read_metadata] binds
    [read_metadata] only: the name [dicom] is not bound here. *)

Definition module_globals : list string :=
  [ "logging"; "logger"; "os"; "time"; "datetime"; "namedtuple"; "Counter";
    "read_metadata"; "walk_image_data"; "report_image_data" ].

(** The built-in names the two functions use. *)
Definition builtins : list string :=
  [ "IOError"; "AttributeError"; "len"; "str" ].

(** Loading a name that is not a local of the function: found among the
    globals, then among the built-ins, or [NameError]. *)
Definition load_global (name : string) : result value :=
  if bool_decide (name ∈ (module_globals ++ builtins)%list)
  then Ok (VAtom (AObj name))
  else Raise (NameError name).

(** ** The aggregate of a series *)

(** A value of the [metadata] dictionary of a series: a [Counter] or the
    minimum/maximum acquisition [datetime]. *)
Inductive mval : Type :=
| MCounter (c : gmap value nat)
| MDateTime (t : datetime).

(** [Series = namedtuple('Series', ['metadata', 'images'])] *)
Record Series : Type :=
  mkSeries { metadata : odict mval; images : gmap value string }.

Definition Series_getattr (s : Series) (name : string)
  : result (odict mval + gmap value string) :=
  if decide (name = "metadata") then Ok (inl (metadata s))
  else if decide (name = "images") then Ok (inr (images s))
  else Raise (AttributeError
                ("'Series' object has no attribute '" ++ name ++ "'")).

(** [c.update(items)] and [Counter(items)]. *)
Definition counter_update (c : gmap value nat) (items : list value)
  : gmap value nat :=
  foldl (fun c v => <[v := S (default 0%nat (c !! v))]> c) c items.

Definition Counter (items : list value) : gmap value nat :=
  counter_update ∅ items.

(** [sum(c.values())] *)
Definition counter_total (c : gmap value nat) : nat :=
  map_fold (fun _ n acc => (n + acc)%nat) 0%nat c.

(** [sum(s.metadata[k].values())], when [s.metadata[k]] is a [Counter]. *)
Definition series_total (k : string) (s : Series) : option nat :=
  match oget k (metadata s) with
  | Some (MCounter c) => Some (counter_total c)
  | _ => None
  end.

(** ** The frame of [report_image_data]

    [series_dict] and the one local that survives from one iteration of the
    loop to the next without being assigned again: [timestamp], which is
    unbound until an iteration assigns it. *)
Record frame : Type :=
  mkFrame { series_dict : gmap value Series; timestamp : option datetime }.

Definition initial_frame : frame := mkFrame ∅ None.

(** Statements: they may mutate the frame and may raise. *)
Definition M (A : Type) : Type := frame -> frame * result A.

Definition ret {A} (a : A) : M A := fun fr => (fr, Ok a).
Definition raise {A} (e : exn) : M A := fun fr => (fr, Raise e).
Definition bind {A B} (c : M A) (k : A -> M B) : M B :=
  fun fr =>
    match c fr with
    | (fr', Ok a) => k a fr'
    | (fr', Raise e) => (fr', Raise e)
    end.
Definition lift {A} (r : result A) : M A := fun fr => (fr, r).

Declare Scope py_scope.
Delimit Scope py_scope with py.
Notation "x <- c ;; k" := (bind c (fun x => k))
  (at level 100, c at next level, right associativity) : py_scope.
Notation "c ;; k" := (bind c (fun _ => k))
  (at level 100, right associativity) : py_scope.
#[local] Open Scope py_scope.

(** [for x in l: f x] *)
Fixpoint for_each {A} (l : list A) (f : A -> M unit) : M unit :=
  match l with
  | [] => ret tt
  | x :: l' => f x ;; for_each l' f
  end.

(** [md[k]] on a decoded record. *)
Definition getitem (md : odict value) (k : string) : M value :=
  lift (match oget k md with Some v => Ok v | None => Raise (KeyError k) end).

(** Reading and assigning the local [timestamp]. *)
Definition load_timestamp : M datetime :=
  fun fr =>
    match timestamp fr with
    | Some t => (fr, Ok t)
    | None => (fr, Raise (UnboundLocalError "timestamp"))
    end.

Definition store_timestamp (t : datetime) : M unit :=
  fun fr => (mkFrame (series_dict fr) (Some t), Ok tt).

(** [series_uid not in series_dict], [series_dict[series_uid]] and
    [series_dict[series_uid] = s]. *)
Definition series_known (uid : value) : M bool :=
  fun fr => (fr, Ok (bool_decide (is_Some (series_dict fr !! uid)))).

Definition load_series (uid : value) : M Series :=
  fun fr =>
    match series_dict fr !! uid with
    | Some s => (fr, Ok s)
    | None => (fr, Raise (KeyError "series_uid"))
    end.

Definition store_series (uid : value) (s : Series) : M unit :=
  fun fr => (mkFrame (<[uid := s]> (series_dict fr)) (timestamp fr), Ok tt).

(** [series_dict[uid].metadata[k]] *)
Definition load_stat (uid : value) (k : string) : M mval :=
  s <- load_series uid ;;
  match oget k (metadata s) with
  | Some m => ret m
  | None => raise (KeyError k)
  end.

(** [series_dict[uid].metadata[k] = m]: the dictionary of the stored
    [Series] is mutated in place. *)
Definition store_stat (uid : value) (k : string) (m : mval) : M unit :=
  s <- load_series uid ;;
  store_series uid (mkSeries (oset k m (metadata s)) (images s)).

(** The bound method [series_dict[uid].metadata[k].update]: only a
    [Counter] has one. *)
Definition load_update_method (uid : value) (k : string)
  : M (gmap value nat) :=
  m <- load_stat uid k ;;
  match m with
  | MCounter c => ret c
  | MDateTime _ =>
      raise (AttributeError
               "'datetime.datetime' object has no attribute 'update'")
  end.

(** ** [report_image_data]: the body of the loop *)

(** The field names the optional-metadata loop leaves out (lines 132-134). *)
Definition named_fields : list string :=
  [ "SeriesInstanceUID"; "SeriesNumber"; "SeriesDescription";
    "SOPInstanceUID"; "ImageType"; "AcquisitionDate"; "AcquisitionTime" ].

(** What the local [metadata] refers to when the optional-metadata loop
    starts: the record the walker yielded, or, once line 111 has rebound the
    name and line 118 has stored the new dictionary in a [Series], the very
    dictionary [series_dict[uid].metadata]. *)
Inductive metadata_ref : Type :=
| RecordDict (md : odict value)
| SeriesDict (uid : value).

(** The keys [for x in metadata] runs over. *)
Definition metadata_keys (r : metadata_ref) : M (list string) :=
  match r with
  | RecordDict md => ret (okeys md)
  | SeriesDict uid => s <- load_series uid ;; ret (okeys (metadata s))
  end.

(** [metadata[x]] used as the one item counted: it has to be hashable. *)
Definition metadata_item (r : metadata_ref) (x : string) : M value :=
  match r with
  | RecordDict md => getitem md x
  | SeriesDict uid =>
      m <- load_stat uid x ;;
      match m with
      | MCounter _ => raise (TypeError "unhashable type: 'Counter'")
      | MDateTime t => ret (VAtom (ADateTime t))
      end
  end.

(** [t < m] and [t > m] for a datetime [t] and a stored value [m]. *)
Definition timestamp_lt (t : datetime) (m : mval) : M bool :=
  match m with
  | MDateTime t' => ret (datetime_ltb t t')
  | MCounter _ =>
      raise (TypeError
               "'<' not supported between 'datetime.datetime' and 'Counter'")
  end.

Definition timestamp_gt (t : datetime) (m : mval) : M bool :=
  match m with
  | MDateTime t' => ret (datetime_gtb t t')
  | MCounter _ =>
      raise (TypeError
               "'>' not supported between 'datetime.datetime' and 'Counter'")
  end.

(** Lines 98-107: the timestamp of the record.  Without [AcquisitionDate]
    nothing is assigned. *)
Definition compute_timestamp (md : odict value) : M unit :=
  if ocontains "AcquisitionDate" md then
    acquisition_date <- getitem md "AcquisitionDate" ;;
    if ocontains "AcquisitionTime" md then
      acquisition_time <- getitem md "AcquisitionTime" ;;
      t <- lift (datetime_combine acquisition_date acquisition_time) ;;
      store_timestamp t
    else
      t <- lift (datetime_of_ymd acquisition_date) ;;
      store_timestamp t
  else ret tt.

(** Lines 111-118: the first record of a series. *)
Definition new_series (series_uid image_uid series_number series_description
                         image_types : value) (relpath : string)
  : M metadata_ref :=
  tags <- lift (iterate image_types) ;;
  tmin <- load_timestamp ;;
  tmax <- load_timestamp ;;
  let metadata :=
    [ ("SeriesNumber", MCounter (Counter [series_number]));
      ("SeriesDescription", MCounter (Counter [series_description]));
      ("ImageType", MCounter (Counter tags));
      ("MinAcquisitionDateTime", MDateTime tmin);
      ("MaxAcquisitionDateTime", MDateTime tmax) ] in
  store_series series_uid (mkSeries metadata {[ image_uid := relpath ]}) ;;
  ret (SeriesDict series_uid).

(** Lines 120-128: a record of a series already in [series_dict]. *)
Definition update_series (md : odict value)
    (series_uid image_uid series_number series_description
       image_types : value) (relpath : string)
  : M metadata_ref :=
  c <- load_update_method series_uid "SeriesNumber" ;;
  store_stat series_uid "SeriesNumber"
    (MCounter (counter_update c [series_number])) ;;
  c <- load_update_method series_uid "SeriesDescription" ;;
  SeriesDescription <- lift (load_global "SeriesDescription") ;;
  store_stat series_uid "SeriesDescription"
    (MCounter (counter_update c [SeriesDescription])) ;;
  c <- load_update_method series_uid "ImageType" ;;
  tags <- lift (iterate image_types) ;;
  store_stat series_uid "ImageType" (MCounter (counter_update c tags)) ;;
  t <- load_timestamp ;;
  tmin <- load_stat series_uid "MinAcquisitionDateTime" ;;
  lt <- timestamp_lt t tmin ;;
  (if lt : bool
   then store_stat series_uid "MinAcquisitionDateTime" (MDateTime t)
   else ret tt) ;;
  t <- load_timestamp ;;
  tmax <- load_stat series_uid "MaxAcquisitionDateTime" ;;
  gt <- timestamp_gt t tmax ;;
  (if gt : bool
   then store_stat series_uid "MaxAcquisitionDateTime" (MDateTime t)
   else ret tt) ;;
  s <- load_series series_uid ;;
  files <- lift (Series_getattr s "files") ;;
  match files with
  | inr table =>
      store_series series_uid
        (mkSeries (metadata s) (<[image_uid := relpath]> table))
  | inl _ =>
      (* a table keyed by image identifiers is not a [metadata]
         dictionary; no attribute of that name is looked up here *)
      raise (TypeError "not a table of images")
  end ;;
  ret (RecordDict md).

(** Lines 131-138: one round of the optional-metadata loop. *)
Definition optional_metadata (series_uid : value) (mref : metadata_ref)
    (x : string) : M unit :=
  if bool_decide (x ∈ named_fields) then ret tt
  else
    s <- load_series series_uid ;;
    if ocontains x (metadata s) then
      c <- load_update_method series_uid x ;;
      v <- metadata_item mref x ;;
      store_stat series_uid x (MCounter (counter_update c [v]))
    else
      v <- metadata_item mref x ;;
      store_stat series_uid x (MCounter (Counter [v])).

(** Lines 92-138: the body of the loop, for one pair the walker yields. *)
Definition fold_record (md : odict value) (relpath : string) : M unit :=
  series_uid <- getitem md "SeriesInstanceUID" ;;
  image_uid <- getitem md "SOPInstanceUID" ;;
  series_number <- getitem md "SeriesNumber" ;;
  series_description <- getitem md "SeriesDescription" ;;
  image_types <- getitem md "ImageType" ;;
  compute_timestamp md ;;
  known <- series_known series_uid ;;
  metadata <-
    (if negb known
     then new_series series_uid image_uid series_number series_description
            image_types relpath
     else update_series md series_uid image_uid series_number
            series_description image_types relpath) ;;
  keys <- metadata_keys metadata ;;
  for_each keys (optional_metadata series_uid metadata).

(** ** [walk_image_data] *)

(** A directory: the names of its files and its sub-directories, in the
    order [os.walk] lists them. *)
#[warnings="-register-all"]
Inductive tree : Type :=
| Node (files : list string) (dirs : list (string * tree)).

(** [os.walk(path)], top-down: a triple (root, dirs, files) for the
    directory itself, then the triples of each sub-directory.  [root] is
    kept as the list of directory names below [path]. *)
Fixpoint os_walk (root : list string) (t : tree)
  : list (list string * list string * list string) :=
  match t with
  | Node files dirs =>
      (root, map fst dirs, files)
        :: (fix subdirs (ds : list (string * tree)) :=
              match ds with
              | [] => []
              | (d, sub) :: ds' =>
                  (os_walk (root ++ [d]) sub ++ subdirs ds')%list
              end) dirs
  end.

(** [os.path.normpath(os.path.relpath(os.path.join(root, filename), path))]:
    the names from [path] down to the file, joined by the separator. *)
Definition relpath_of (root : list string) (filename : string) : string :=
  String.concat "/" (root ++ [filename])%list.

(** [os.path.join(root, filename)], as the walked [path] and the names below
    it. *)
Definition abspath_of (path : string) (root : list string)
    (filename : string) : string * list string :=
  (path, (root ++ [filename])%list).

Inductive level : Type := DEBUG | INFO | ERROR.

Inductive log_arg : Type :=
| LStr (s : string)
| LCount (n : nat)
| LElapsed.

(** A call of [logger.debug], [logger.info] or [logger.error]. *)
Record log_entry : Type :=
  Log { log_level : level; log_format : string; log_args : list log_arg }.

(** A generator, unfolded: what it logs and yields, in order, until it
    returns or raises. *)
Inductive gen (A : Type) : Type :=
| Stop
| Emit (l : log_entry) (k : gen A)
| Yield (a : A) (k : gen A)
| Throw (e : exn).
Arguments Stop {A}.
Arguments Emit {A} l k.
Arguments Yield {A} a k.
Arguments Throw {A} e.

(** [str(e)] *)
Definition exn_str (e : exn) : string :=
  match e with
  | KeyError k => "'" ++ k ++ "'"
  | NameError n => "name '" ++ n ++ "' is not defined"
  | UnboundLocalError n =>
      "local variable '" ++ n ++ "' referenced before assignment"
  | AttributeError m | TypeError m | IOError m | InvalidDicomError m => m
  | OtherError _ m => m
  end.

Section Walker.

(** [read_metadata(abspath, force=force)] of [databank.dicom]: the decoded
    record, or the exception it raises. *)
Variable read_metadata : string * list string -> bool -> result (odict value).

(** Lines 50-55: the [except] clauses, tried in order for an exception [e]
    of [read_metadata]; [k] is the rest of the walk.  The class of a
    clause is an expression, evaluated when the clause is tried. *)
Definition handle_read_error (e : exn) (relpath : string)
    (k : gen (odict value * string)) : gen (odict value * string) :=
  match e with
  | IOError _ =>
      Emit (Log ERROR "cannot read file (%s): %s"
              [LStr (exn_str e); LStr relpath]) k
  | _ =>
      match load_global "dicom" with
      | Raise e' => Throw e'
      | Ok _ =>
          match e with
          | InvalidDicomError _ =>
              Emit (Log ERROR "cannot read nonstandard DICOM file: %s: %s"
                      [LStr (exn_str e); LStr relpath]) k
          | AttributeError _ =>
              Emit (Log ERROR "missing attribute: %s: %s"
                      [LStr (exn_str e); LStr relpath]) k
          | _ => Throw e
          end
      end
  end.

(** Lines 41-57: the files of one directory. *)
Fixpoint walk_files (path : string) (force : bool) (root : list string)
    (files : list string) (k : gen (odict value * string))
  : gen (odict value * string) :=
  match files with
  | [] => k
  | filename :: files' =>
      let abspath := abspath_of path root filename in
      let relpath := relpath_of root filename in
      if decide (filename = "DICOMDIR") then
        walk_files path force root files' k
      else
        Emit (Log DEBUG "read file: %s" [LStr relpath])
          match read_metadata abspath force with
          | Ok metadata =>
              Yield (metadata, relpath)
                (walk_files path force root files' k)
          | Raise e =>
              handle_read_error e relpath
                (walk_files path force root files' k)
          end
  end.

(** Lines 39-60: the directories, then the closing log entry. *)
Fixpoint walk_dirs (path : string) (force : bool) (n : nat)
    (triples : list (list string * list string * list string))
  : gen (odict value * string) :=
  match triples with
  | [] =>
      Emit (Log INFO "processed %d files in %.2f s: %s"
              [LCount n; LElapsed; LStr path]) Stop
  | (root, _, files) :: rest =>
      walk_files path force root files
        (walk_dirs path force (n + length files)%nat rest)
  end.

Definition walk_image_data (path : string) (force : bool) (t : tree)
  : gen (odict value * string) :=
  Emit (Log INFO "start processing files: %s" [LStr path])
    (walk_dirs path force 0%nat (os_walk [] t)).

(** ** [report_image_data] *)

(** The [for] loop over the generator: what the generator logs is
    appended to the log; an exception, of the generator or of the body,
    ends the loop with the frame as it is then. *)
Fixpoint consume (g : gen (odict value * string)) (fr : frame)
    (log : list log_entry) : frame * list log_entry * result unit :=
  match g with
  | Stop => (fr, log, Ok tt)
  | Emit l k => consume k fr (log ++ [l])%list
  | Yield (md, relpath) k =>
      match fold_record md relpath fr with
      | (fr', Ok _) => consume k fr' log
      | (fr', Raise e) => (fr', log, Raise e)
      end
  | Throw e => (fr, log, Raise e)
  end.

(** The run of [report_image_data(path, force)]: final frame, log and
    outcome. *)
Definition report_image_data_run (path : string) (force : bool) (t : tree)
  : frame * list log_entry * result unit :=
  consume (walk_image_data path true t) initial_frame [].

(** What the caller gets: [series_dict], or the exception. *)
Definition report_image_data (path : string) (force : bool) (t : tree)
  : result (gmap value Series) :=
  match report_image_data_run path force t with
  | (fr, _, Ok _) => Ok (series_dict fr)
  | (_, _, Raise e) => Raise e
  end.

End Walker.

(** ** Notions used to state the properties *)

(** The fields read by lines 93-97, in that order. *)
Definition required_fields : list string :=
  [ "SeriesInstanceUID"; "SOPInstanceUID"; "SeriesNumber";
    "SeriesDescription"; "ImageType" ].

(** The first required field a record lacks. *)
Definition first_missing (md : odict value) : option string :=
  find (fun k => negb (ocontains k md)) required_fields.

(** The message of the exception of line 136 on a datetime. *)
Definition no_update : exn :=
  AttributeError "'datetime.datetime' object has no attribute 'update'".

(** The dictionary built by lines 111-117. *)
Definition fresh_metadata (series_number series_description : value)
    (tags : list value) (tmin tmax : datetime) : odict mval :=
  [ ("SeriesNumber", MCounter (Counter [series_number]));
    ("SeriesDescription", MCounter (Counter [series_description]));
    ("ImageType", MCounter (Counter tags));
    ("MinAcquisitionDateTime", MDateTime tmin);
    ("MaxAcquisitionDateTime", MDateTime tmax) ].

(** What one execution of the body does to the frame, and how it ends. *)
Inductive fold_outcome (md : odict value) (relpath : string) (fr : frame)
  : frame -> result unit -> Prop :=
| fold_key_error k :
    first_missing md = Some k ->
    fold_outcome md relpath fr fr (Raise (KeyError k))
| fold_no_change fr1 r1 e :
    first_missing md = None ->
    compute_timestamp md fr = (fr1, r1) ->
    fold_outcome md relpath fr fr1 (Raise e)
| fold_created uid iuid sn sd it tags t fr1 :
    oget "SeriesInstanceUID" md = Some uid ->
    oget "SOPInstanceUID" md = Some iuid ->
    oget "SeriesNumber" md = Some sn ->
    oget "SeriesDescription" md = Some sd ->
    oget "ImageType" md = Some it ->
    iterate it = Ok tags ->
    first_missing md = None ->
    compute_timestamp md fr = (fr1, Ok tt) ->
    timestamp fr1 = Some t ->
    series_dict fr !! uid = None ->
    fold_outcome md relpath fr
      (mkFrame (<[uid := mkSeries (fresh_metadata sn sd tags t t)
                           {[ iuid := relpath ]}]> (series_dict fr)) (Some t))
      (Raise no_update)
| fold_counted uid sn s c fr1 e :
    oget "SeriesInstanceUID" md = Some uid ->
    oget "SeriesNumber" md = Some sn ->
    first_missing md = None ->
    compute_timestamp md fr = (fr1, Ok tt) ->
    series_dict fr !! uid = Some s ->
    oget "SeriesNumber" (metadata s) = Some (MCounter c) ->
    fold_outcome md relpath fr
      (mkFrame (<[uid := mkSeries (oset "SeriesNumber"
                                     (MCounter (counter_update c [sn]))
                                     (metadata s)) (images s)]>
                  (series_dict fr)) (timestamp fr1))
      (Raise e).

(** The pairs a generator yields, in order. *)
Fixpoint yields {A} (g : gen A) : list A :=
  match g with
  | Stop | Throw _ => []
  | Emit _ k => yields k
  | Yield a k => a :: yields k
  end.

(** [enters g fr md relpath fr0]: in the loop of [report_image_data] over
    the generator [g], started in frame [fr], the body is entered for the
    pair [(md, relpath)] in frame [fr0].  The pairs before it were folded
    without an exception. *)
Inductive enters
  : gen (odict value * string) -> frame -> odict value -> string -> frame
    -> Prop :=
| enters_here md relpath k fr :
    enters (Yield (md, relpath) k) fr md relpath fr
| enters_emit l k fr md relpath fr0 :
    enters k fr md relpath fr0 ->
    enters (Emit l k) fr md relpath fr0
| enters_next md' relpath' k fr fr' md relpath fr0 :
    fold_record md' relpath' fr = (fr', Ok tt) ->
    enters k fr' md relpath fr0 ->
    enters (Yield (md', relpath') k) fr md relpath fr0.

(** Every aggregate has both ends of its timestamp interval, in order. *)
Definition timestamps_ordered (sd : gmap value Series) : Prop :=
  forall uid s,
    sd !! uid = Some s ->
    exists tmin tmax,
      oget "MinAcquisitionDateTime" (metadata s) = Some (MDateTime tmin) /\
      oget "MaxAcquisitionDateTime" (metadata s) = Some (MDateTime tmax) /\
      datetime_le tmin tmax.

(** A file path whose last name is DICOMDIR. *)
Definition is_DICOMDIR (abspath : string * list string) : Prop :=
  last (snd abspath) = Some "DICOMDIR".

(** ** A directory of examples *)

Module Example.

(** Two images of series S1 and one of series S2, as decoded records. *)
Definition record_a : odict value :=
  [ ("SeriesInstanceUID", VStr "S1"); ("SOPInstanceUID", VStr "I1");
    ("SeriesNumber", VInt 1); ("SeriesDescription", VStr "T1");
    ("ImageType", VSeq [AStr "ORIGINAL"; AStr "PRIMARY"]);
    ("AcquisitionDate", VDate (Date 2020 1 1));
    ("Manufacturer", VStr "ACME") ].

Definition record_b : odict value :=
  [ ("SeriesInstanceUID", VStr "S1"); ("SOPInstanceUID", VStr "I2");
    ("SeriesNumber", VInt 1); ("SeriesDescription", VStr "T1");
    ("ImageType", VSeq [AStr "ORIGINAL"; AStr "PRIMARY"]);
    ("AcquisitionDate", VDate (Date 2020 1 3));
    ("Manufacturer", VStr "ACME") ].

(** The same image identifier as [record_a], in another file. *)
Definition record_a' : odict value :=
  [ ("SeriesInstanceUID", VStr "S1"); ("SOPInstanceUID", VStr "I1");
    ("SeriesNumber", VInt 1); ("SeriesDescription", VStr "T1");
    ("ImageType", VSeq [AStr "ORIGINAL"; AStr "PRIMARY"]);
    ("AcquisitionDate", VDate (Date 2020 1 3)) ].

(** A record of series S2 without acquisition date. *)
Definition record_c : odict value :=
  [ ("SeriesInstanceUID", VStr "S2"); ("SOPInstanceUID", VStr "I3");
    ("SeriesNumber", VInt 2); ("SeriesDescription", VStr "T2");
    ("ImageType", VSeq [AStr "DERIVED"]) ].

(** A record without [SeriesNumber]. *)
Definition record_d : odict value :=
  [ ("SeriesInstanceUID", VStr "S1"); ("SOPInstanceUID", VStr "I4");
    ("SeriesDescription", VStr "T1");
    ("ImageType", VSeq [AStr "ORIGINAL"]) ].

(** A decoder, by file name. *)
Definition read (abspath : string * list string) (force : bool)
  : result (odict value) :=
  match last (snd abspath) with
  | Some "a.dcm" => Ok record_a
  | Some "b.dcm" => Ok record_b
  | Some "a2.dcm" => Ok record_a'
  | Some "c.dcm" => Ok record_c
  | Some "d.dcm" => Ok record_d
  | Some "unreadable" => Raise (IOError "Permission denied")
  | Some "headerless" =>
      if force then Ok record_c
      else Raise (InvalidDicomError "File is missing DICOM header")
  | Some "incomplete" => Raise (AttributeError "SeriesInstanceUID")
  | _ => Raise (InvalidDicomError "File is missing DICOM header")
  end.

(** The same decoder, except on files named DICOMDIR. *)
Definition read' (abspath : string * list string) (force : bool)
  : result (odict value) :=
  if decide (last (snd abspath) = Some "DICOMDIR") then Ok record_a
  else read abspath force.

Definition tree_ab : tree := Node ["a.dcm"; "b.dcm"] [].
Definition tree_aa : tree := Node ["a.dcm"] [("sub", Node ["a2.dcm"] [])].
Definition tree_a : tree := Node ["a.dcm"] [].
Definition tree_c : tree := Node ["c.dcm"; "a.dcm"] [].
Definition tree_d : tree := Node ["unreadable"; "d.dcm"; "a.dcm"] [].
Definition tree_bad : tree :=
  Node ["unreadable"; "garbage"; "a.dcm"] [].
Definition tree_incomplete : tree := Node ["incomplete"; "a.dcm"] [].
Definition tree_dicomdir : tree :=
  Node ["DICOMDIR"] [("sub", Node ["DICOMDIR"; "unreadable"] [])].

(** The frame the body leaves after [record_a] on the initial frame. *)
Definition frame_a : frame := fst (fold_record record_a "a.dcm" initial_frame).

End Example.
Import Example.

(** ** What a walk logs, yields and how it ends *)

(** The log entries of a generator, in order. *)
Fixpoint gen_logs {A} (g : gen A) : list log_entry :=
  match g with
  | Stop | Throw _ => []
  | Emit l k => l :: gen_logs k
  | Yield _ k => gen_logs k
  end.

(** The exception a generator ends with, if any. *)
Fixpoint gen_end {A} (g : gen A) : option exn :=
  match g with
  | Stop => None
  | Throw e => Some e
  | Emit _ k | Yield _ k => gen_end k
  end.

Definition is_error_entry (l : log_entry) : bool :=
  match log_level l with ERROR => true | _ => false end.

(** The files [os.walk] lists, directory by directory. *)
Definition listed_files (triples : list (list string * list string * list string))
  : list (list string * string) :=
  flat_map (fun '(root, _, files) => map (fun f => (root, f)) files) triples.

Section WalkSpec.

Variable read_metadata : string * list string -> bool -> result (odict value).
Variable path : string.
Variable force : bool.

(** What one listed file contributes to the sequence of yielded pairs and
    to the log, when the decoder returns or raises [IOError]. *)
Definition file_yields (rf : list string * string)
  : list (odict value * string) :=
  let '(root, filename) := rf in
  if decide (filename = "DICOMDIR") then []
  else match read_metadata (abspath_of path root filename) force with
       | Ok md => [(md, relpath_of root filename)]
       | Raise _ => []
       end.

Definition file_logs (rf : list string * string) : list log_entry :=
  let '(root, filename) := rf in
  if decide (filename = "DICOMDIR") then []
  else Log DEBUG "read file: %s" [LStr (relpath_of root filename)]
         :: match read_metadata (abspath_of path root filename) force with
            | Ok _ => []
            | Raise e =>
                [Log ERROR "cannot read file (%s): %s"
                   [LStr (exn_str e); LStr (relpath_of root filename)]]
            end.

(** On every listed file that is not named DICOMDIR the decoder returns a
    record or raises [IOError]. *)
Definition decodes_or_IOError
    (triples : list (list string * list string * list string)) : Prop :=
  forall root filename e,
    In (root, filename) (listed_files triples) ->
    filename <> "DICOMDIR" ->
    read_metadata (abspath_of path root filename) force = Raise e ->
    exists msg, e = IOError msg.

End WalkSpec.

(** A record that lines 93-97 and lines 112-114 accept: the five required
    fields, with an [ImageType] that can be iterated. *)
Record well_formed (md : odict value) (uid iuid sn sd : value)
    (tags : list value) : Prop :=
  { wf_series_uid : oget "SeriesInstanceUID" md = Some uid;
    wf_image_uid : oget "SOPInstanceUID" md = Some iuid;
    wf_series_number : oget "SeriesNumber" md = Some sn;
    wf_series_description : oget "SeriesDescription" md = Some sd;
    wf_image_types :
      exists it, oget "ImageType" md = Some it /\ iterate it = Ok tags }.

Module ExampleWalk.

(** A directory with an unreadable file, two DICOMDIR files and two images,
    one of them in a sub-directory. *)
Definition tree_mixed : tree :=
  Node ["unreadable"; "DICOMDIR"; "a.dcm"]
    [("sub", Node ["b.dcm"; "DICOMDIR"] [])].

(** A directory where nothing can be decoded. *)
Definition tree_unreadable : tree :=
  Node ["unreadable"; "DICOMDIR"] [("sub", Node ["unreadable"] [])].

(** A rejected file followed by an image and a sub-directory. *)
Definition tree_rejected : tree :=
  Node ["unreadable"; "garbage"; "a.dcm"] [("sub", Node ["b.dcm"] [])].

(** A frame where series S1 is known, with an interval of three days. *)
Definition frame_known : frame :=
  mkFrame
    {[ VStr "S1" :=
         mkSeries
           (fresh_metadata (VInt 1) (VStr "T1") [VStr "ORIGINAL"]
              (DateTime (Date 2020 1 1) (Time 0 0 0 0))
              (DateTime (Date 2020 1 4) (Time 0 0 0 0)))
           {[ VStr "I0" := "first.dcm" ]} ]}
    None.

(** A record whose acquisition date is a string. *)
Definition record_text_date : odict value :=
  [ ("SeriesInstanceUID", VStr "S3"); ("SOPInstanceUID", VStr "I5");
    ("SeriesNumber", VInt 3); ("SeriesDescription", VStr "T3");
    ("ImageType", VSeq [AStr "ORIGINAL"]);
    ("AcquisitionDate", VStr "20200101") ].

(** A record of series S2 with acquisition date and time. *)
Definition record_e : odict value :=
  [ ("SeriesInstanceUID", VStr "S2"); ("SOPInstanceUID", VStr "I6");
    ("SeriesNumber", VInt 2); ("SeriesDescription", VStr "T2");
    ("ImageType", VSeq [AStr "DERIVED"; AStr "SECONDARY"]);
    ("AcquisitionDate", VDate (Date 2020 2 2));
    ("AcquisitionTime", VTime (Time 10 30 0 0)) ].

End ExampleWalk.
Import ExampleWalk.

Module ExampleTimestamp.



End ExampleTimestamp.
Import ExampleTimestamp.

(** * Properties *)

(** ** Insertion-ordered dictionaries *)

Section ODictFacts.

Context {V : Type}.
Implicit Types (d : odict V) (k : string).

Lemma oget_oset_eq k v d : oget k (oset k v d) = Some v.
Proof.
induction d as [|[k' v'] d IH]; simpl.
- rewrite decide_True; auto.
- destruct (decide (k' = k)); simpl.
  + rewrite decide_True; auto.
  + rewrite decide_False; auto.
Qed.

Lemma oget_oset_ne k k' v d : k <> k' -> oget k' (oset k v d) = oget k' d.
Proof.
intros Hne. induction d as [|[k0 v0] d IH]; simpl.
- rewrite decide_False; auto.
- destruct (decide (k0 = k)) as [->|Hk0]; simpl.
  + rewrite !decide_False; auto.
  + destruct (decide (k0 = k')); auto.
Qed.

End ODictFacts.

(** ** The loop body, statement by statement *)

Lemma bind_unfold {A B} (c : M A) (k : A -> M B) fr :
  bind c k fr =
  match c fr with
  | (fr', Ok a) => k a fr'
  | (fr', Raise e) => (fr', Raise e)
  end.
Proof. reflexivity. Qed.

Lemma optional_metadata_named uid mref x :
  x ∈ named_fields -> optional_metadata uid mref x = ret tt.
Proof.
  intros H. unfold optional_metadata. now rewrite bool_decide_eq_true_2.
Qed.

Lemma bind_ok {A B} (c : M A) (k : A -> M B) fr fr' a :
  c fr = (fr', Ok a) -> bind c k fr = k a fr'.
Proof. intros H. unfold bind. now rewrite H. Qed.

Lemma bind_raise {A B} (c : M A) (k : A -> M B) fr fr' e :
  c fr = (fr', Raise e) -> bind c k fr = (fr', Raise e).
Proof. intros H. unfold bind. now rewrite H. Qed.

Lemma load_series_some uid s fr :
  series_dict fr !! uid = Some s -> load_series uid fr = (fr, Ok s).
Proof. intros H. unfold load_series. now rewrite H. Qed.

Lemma load_stat_some uid s k m fr :
  series_dict fr !! uid = Some s -> oget k (metadata s) = Some m ->
  load_stat uid k fr = (fr, Ok m).
Proof.
  intros Hs Hk. unfold load_stat.
  rewrite (bind_ok _ _ _ _ _ (load_series_some _ _ _ Hs)). now rewrite Hk.
Qed.

Lemma load_update_method_datetime uid s k t fr :
  series_dict fr !! uid = Some s -> oget k (metadata s) = Some (MDateTime t) ->
  load_update_method uid k fr = (fr, Raise no_update).
Proof.
  intros Hs Hk. unfold load_update_method.
  now rewrite (bind_ok _ _ _ _ _ (load_stat_some _ _ _ _ _ Hs Hk)).
Qed.

(** After lines 111-118 the name [metadata] is the dictionary of the new
    [Series]: the loop of line 131 runs over its five keys and calls
    [update] on the datetime stored under [MinAcquisitionDateTime]. *)
Lemma optional_loop_fresh uid s fr sn sd tags tmin tmax :
  series_dict fr !! uid = Some s ->
  metadata s = fresh_metadata sn sd tags tmin tmax ->
  (keys <- metadata_keys (SeriesDict uid) ;;
   for_each keys (optional_metadata uid (SeriesDict uid))) fr
  = (fr, Raise no_update).
Proof.
  intros Hs Hm.
  assert (Hkeys : metadata_keys (SeriesDict uid) fr
                  = (fr, Ok (okeys (fresh_metadata sn sd tags tmin tmax)))).
  { unfold metadata_keys.
    rewrite (bind_ok _ _ _ _ _ (load_series_some _ _ _ Hs)). now rewrite Hm. }
  rewrite (bind_ok _ _ _ _ _ Hkeys).
  cbv [fresh_metadata okeys map fst for_each].
  rewrite !optional_metadata_named by (vm_compute; repeat constructor).
  do 3 (rewrite bind_ok with (fr' := fr) (a := tt) by reflexivity).
  apply bind_raise. unfold optional_metadata.
  replace (bool_decide ("MinAcquisitionDateTime" ∈ named_fields)) with false
    by (vm_compute; reflexivity).
  rewrite (bind_ok _ _ _ _ _ (load_series_some _ _ _ Hs)).
  rewrite Hm.
  change (ocontains "MinAcquisitionDateTime" (fresh_metadata sn sd tags tmin tmax)) with true.
  cbv iota. apply bind_raise.
  apply load_update_method_datetime with (s := s) (t := tmin); auto.
  now rewrite Hm.
Qed.

Lemma store_series_run uid s fr :
  store_series uid s fr
  = (mkFrame (<[uid := s]> (series_dict fr)) (timestamp fr), Ok tt).
Proof. reflexivity. Qed.

Lemma store_stat_some uid s k m fr :
  series_dict fr !! uid = Some s ->
  store_stat uid k m fr
  = (mkFrame (<[uid := mkSeries (oset k m (metadata s)) (images s)]>
                (series_dict fr)) (timestamp fr), Ok tt).
Proof.
  intros Hs. unfold store_stat.
  now rewrite (bind_ok _ _ _ _ _ (load_series_some _ _ _ Hs)).
Qed.

Lemma load_update_method_counter uid s k c fr :
  series_dict fr !! uid = Some s -> oget k (metadata s) = Some (MCounter c) ->
  load_update_method uid k fr = (fr, Ok c).
Proof.
  intros Hs Hk. unfold load_update_method.
  now rewrite (bind_ok _ _ _ _ _ (load_stat_some _ _ _ _ _ Hs Hk)).
Qed.

(** [load_update_method] never changes the frame. *)
Lemma load_update_method_frame uid k fr :
  fst (load_update_method uid k fr) = fr.
Proof.
  unfold load_update_method, load_stat, load_series, bind, ret, raise.
  destruct (series_dict fr !! uid) as [s|]; [|reflexivity].
  destruct (oget k (metadata s)) as [[c|t]|]; reflexivity.
Qed.

(** Lines 111-118 on a frame whose [timestamp] is bound. *)
Lemma new_series_bound uid iuid sn sd it tags relpath fr t :
  iterate it = Ok tags -> timestamp fr = Some t ->
  new_series uid iuid sn sd it relpath fr
  = (mkFrame (<[uid := mkSeries (fresh_metadata sn sd tags t t)
                         {[ iuid := relpath ]}]> (series_dict fr)) (Some t),
     Ok (SeriesDict uid)).
Proof.
  intros Hit Hts. unfold new_series.
  rewrite bind_ok with (fr' := fr) (a := tags) by (unfold lift; now rewrite Hit).
  assert (Hl : load_timestamp fr = (fr, Ok t))
    by (unfold load_timestamp; now rewrite Hts).
  rewrite (bind_ok _ _ _ _ _ Hl). rewrite (bind_ok _ _ _ _ _ Hl).
  rewrite (bind_ok _ _ _ _ _ (store_series_run _ _ _)).
  unfold ret, fresh_metadata. now rewrite Hts.
Qed.

(** Lines 111-118 raise without touching the frame when [ImageType] is not
    iterable or [timestamp] is unbound. *)
Lemma new_series_unbound uid iuid sn sd it tags relpath fr :
  iterate it = Ok tags -> timestamp fr = None ->
  new_series uid iuid sn sd it relpath fr
  = (fr, Raise (UnboundLocalError "timestamp")).
Proof.
  intros Hit Hts. unfold new_series.
  rewrite bind_ok with (fr' := fr) (a := tags) by (unfold lift; now rewrite Hit).
  apply bind_raise. unfold load_timestamp. now rewrite Hts.
Qed.

Lemma new_series_not_iterable uid iuid sn sd it e relpath fr :
  iterate it = Raise e ->
  new_series uid iuid sn sd it relpath fr = (fr, Raise e).
Proof.
  intros Hit. unfold new_series. apply bind_raise. unfold lift. now rewrite Hit.
Qed.

(** Line 121 names [SeriesDescription], which is neither a local nor a
    global. *)
Lemma SeriesDescription_unbound :
  load_global "SeriesDescription" = Raise (NameError "SeriesDescription").
Proof. vm_compute. reflexivity. Qed.

Lemma dicom_unbound : load_global "dicom" = Raise (NameError "dicom").
Proof. vm_compute. reflexivity. Qed.

(** Lines 120-128 on a series whose two first counters are there: the first
    is incremented, then line 121 raises. *)
Lemma update_series_counted md uid iuid sn sd it relpath fr s c c' :
  series_dict fr !! uid = Some s ->
  oget "SeriesNumber" (metadata s) = Some (MCounter c) ->
  oget "SeriesDescription" (metadata s) = Some (MCounter c') ->
  update_series md uid iuid sn sd it relpath fr
  = (mkFrame (<[uid := mkSeries (oset "SeriesNumber"
                                   (MCounter (counter_update c [sn]))
                                   (metadata s)) (images s)]> (series_dict fr))
             (timestamp fr),
     Raise (NameError "SeriesDescription")).
Proof.
  intros Hs Hn Hd. unfold update_series.
  rewrite (bind_ok _ _ _ _ _ (load_update_method_counter _ _ _ _ _ Hs Hn)).
  rewrite (bind_ok _ _ _ _ _ (store_stat_some _ _ _ _ _ Hs)).
  erewrite bind_ok.
  2:{ eapply load_update_method_counter.
      - simpl. apply lookup_insert_eq.
      - simpl. rewrite oget_oset_ne by discriminate. exact Hd. }
  apply bind_raise. unfold lift. now rewrite SeriesDescription_unbound.
Qed.

(** Lines 120-128 always raise; at most the [SeriesNumber] counter of the
    series has changed by then. *)
Lemma update_series_raises md uid iuid sn sd it relpath fr :
  exists fr' e,
    update_series md uid iuid sn sd it relpath fr = (fr', Raise e) /\
    timestamp fr' = timestamp fr /\
    (series_dict fr' = series_dict fr \/
     exists s c,
       series_dict fr !! uid = Some s /\
       oget "SeriesNumber" (metadata s) = Some (MCounter c) /\
       series_dict fr'
       = <[uid := mkSeries (oset "SeriesNumber"
                              (MCounter (counter_update c [sn]))
                              (metadata s)) (images s)]> (series_dict fr)).
Proof.
  unfold update_series.
  destruct (series_dict fr !! uid) as [s|] eqn:Hs.
  2:{ exists fr, (KeyError "series_uid"). split; [|auto].
      apply bind_raise. unfold load_update_method. apply bind_raise.
      unfold load_stat. apply bind_raise. unfold load_series. now rewrite Hs. }
  destruct (oget "SeriesNumber" (metadata s)) as [[c|t]|] eqn:Hn.
  - rewrite (bind_ok _ _ _ _ _ (load_update_method_counter _ _ _ _ _ Hs Hn)).
    rewrite (bind_ok _ _ _ _ _ (store_stat_some _ _ _ _ _ Hs)).
    set (fr1 := mkFrame _ _).
    destruct (load_update_method uid "SeriesDescription" fr1)
      as [fr2 [c'|e]] eqn:Hu;
      pose proof (load_update_method_frame uid "SeriesDescription" fr1) as Hf;
      rewrite Hu in Hf; simpl in Hf; subst fr2.
    + rewrite (bind_ok _ _ _ _ _ Hu).
      exists fr1, (NameError "SeriesDescription"). split; [|split].
      * apply bind_raise. unfold lift. now rewrite SeriesDescription_unbound.
      * reflexivity.
      * right. exists s, c. auto.
    + exists fr1, e. split; [|split].
      * now apply bind_raise.
      * reflexivity.
      * right. exists s, c. auto.
  - exists fr, no_update. split; [|auto].
    apply bind_raise. eapply load_update_method_datetime; eauto.
  - exists fr, (KeyError "SeriesNumber"). split; [|auto].
    apply bind_raise. unfold load_update_method. apply bind_raise.
    unfold load_stat. rewrite (bind_ok _ _ _ _ _ (load_series_some _ _ _ Hs)).
    now rewrite Hn.
Qed.

(** *** Lines 98-107 *)

Lemma getitem_some md k v fr : oget k md = Some v -> getitem md k fr = (fr, Ok v).
Proof. intros H. unfold getitem, lift. now rewrite H. Qed.

Lemma getitem_none md k fr :
  oget k md = None -> getitem md k fr = (fr, Raise (KeyError k)).
Proof. intros H. unfold getitem, lift. now rewrite H. Qed.




(** The timestamp phase either leaves the frame alone or binds [timestamp]. *)
Lemma compute_timestamp_shape md fr :
  (exists r, compute_timestamp md fr = (fr, r) /\
             (r = Ok tt -> oget "AcquisitionDate" md = None)) \/
  (exists t, compute_timestamp md fr = (mkFrame (series_dict fr) (Some t), Ok tt)
             /\ is_Some (oget "AcquisitionDate" md)).
Proof.
  unfold compute_timestamp, ocontains.
  destruct (oget "AcquisitionDate" md) as [d|] eqn:Hd.
  2:{ left. exists (Ok tt). auto. }
  rewrite (bind_ok _ _ _ _ _ (getitem_some _ _ _ _ Hd)).
  destruct (oget "AcquisitionTime" md) as [tm|] eqn:Ht.
  - rewrite (bind_ok _ _ _ _ _ (getitem_some _ _ _ _ Ht)).
    unfold bind, lift.
    destruct (datetime_combine d tm) as [t|e].
    + right. exists t. split; [reflexivity|eauto].
    + left. exists (Raise e). split; [reflexivity|discriminate].
  - unfold bind, lift.
    destruct (datetime_of_ymd d) as [t|e].
    + right. exists t. split; [reflexivity|eauto].
    + left. exists (Raise e). split; [reflexivity|discriminate].
Qed.

Lemma compute_timestamp_series_dict md fr :
  series_dict (fst (compute_timestamp md fr)) = series_dict fr.
Proof.
  destruct (compute_timestamp_shape md fr) as [(r & -> & _)|(t & -> & _)];
    reflexivity.
Qed.

(** *** The whole body *)

Lemma fold_record_outcome md relpath fr fr' r :
  fold_record md relpath fr = (fr', r) -> fold_outcome md relpath fr fr' r.
Proof.
  unfold fold_record. intros Hf.
  destruct (oget "SeriesInstanceUID" md) as [uid|] eqn:H1.
  2:{ rewrite (bind_raise _ _ _ _ _ (getitem_none _ _ _ H1)) in Hf.
      injection Hf as <- <-.
      constructor. unfold first_missing, required_fields, ocontains.
      simpl. now rewrite H1. }
  rewrite (bind_ok _ _ _ _ _ (getitem_some _ _ _ _ H1)) in Hf.
  destruct (oget "SOPInstanceUID" md) as [iuid|] eqn:H2.
  2:{ rewrite (bind_raise _ _ _ _ _ (getitem_none _ _ _ H2)) in Hf.
      injection Hf as <- <-.
      constructor. unfold first_missing, required_fields, ocontains.
      simpl. now rewrite H1, H2. }
  rewrite (bind_ok _ _ _ _ _ (getitem_some _ _ _ _ H2)) in Hf.
  destruct (oget "SeriesNumber" md) as [sn|] eqn:H3.
  2:{ rewrite (bind_raise _ _ _ _ _ (getitem_none _ _ _ H3)) in Hf.
      injection Hf as <- <-.
      constructor. unfold first_missing, required_fields, ocontains.
      simpl. now rewrite H1, H2, H3. }
  rewrite (bind_ok _ _ _ _ _ (getitem_some _ _ _ _ H3)) in Hf.
  destruct (oget "SeriesDescription" md) as [sd|] eqn:H4.
  2:{ rewrite (bind_raise _ _ _ _ _ (getitem_none _ _ _ H4)) in Hf.
      injection Hf as <- <-.
      constructor. unfold first_missing, required_fields, ocontains.
      simpl. now rewrite H1, H2, H3, H4. }
  rewrite (bind_ok _ _ _ _ _ (getitem_some _ _ _ _ H4)) in Hf.
  destruct (oget "ImageType" md) as [it|] eqn:H5.
  2:{ rewrite (bind_raise _ _ _ _ _ (getitem_none _ _ _ H5)) in Hf.
      injection Hf as <- <-.
      constructor. unfold first_missing, required_fields, ocontains.
      simpl. now rewrite H1, H2, H3, H4, H5. }
  rewrite (bind_ok _ _ _ _ _ (getitem_some _ _ _ _ H5)) in Hf.
  assert (Hreq : first_missing md = None).
  { unfold first_missing, required_fields, ocontains. simpl.
    now rewrite H1, H2, H3, H4, H5. }
  destruct (compute_timestamp md fr) as [fr1 [[]|e]] eqn:Hts.
  2:{ rewrite (bind_raise _ _ _ _ _ Hts) in Hf. injection Hf as <- <-.
      eapply fold_no_change; eauto. }
  rewrite (bind_ok _ _ _ _ _ Hts) in Hf.
  pose proof (compute_timestamp_series_dict md fr) as Hsd.
  rewrite Hts in Hsd. simpl in Hsd.
  rewrite bind_unfold in Hf. unfold series_known in Hf. rewrite Hsd in Hf.
  destruct (series_dict fr !! uid) as [s|] eqn:Hs.
  - (* the series is known *)
    rewrite bool_decide_eq_true_2 in Hf by eauto. simpl negb in Hf.
    cbv iota in Hf.
    destruct (update_series_raises md uid iuid sn sd it relpath fr1)
      as (fr2 & e & Hu & Ht2 & Hd2).
    rewrite (bind_raise _ _ _ _ _ Hu) in Hf. injection Hf as <- <-.
    destruct Hd2 as [Hd2|(s' & c & Hs' & Hc & Hd2)].
    + assert (fr2 = fr1) as ->
          by (destruct fr2, fr1; simpl in *; congruence).
      eapply fold_no_change; eauto.
    + rewrite Hsd, Hs in Hs'. injection Hs' as <-.
      destruct fr2 as [sd2 ts2]. simpl in *. subst sd2 ts2. rewrite Hsd.
      eapply fold_counted; eauto.
  - (* a new series *)
    rewrite bool_decide_eq_false_2 in Hf by (intros [? ?]; discriminate).
    simpl negb in Hf. cbv iota in Hf.
    destruct (iterate it) as [tags|e] eqn:Hit.
    2:{ rewrite (bind_raise _ _ _ _ _
                   (new_series_not_iterable _ _ _ _ _ _ _ _ Hit)) in Hf.
        injection Hf as <- <-. eapply fold_no_change; eauto. }
    destruct (timestamp fr1) as [t|] eqn:Ht1.
    2:{ rewrite (bind_raise _ _ _ _ _
                   (new_series_unbound _ _ _ _ _ _ _ _ Hit Ht1)) in Hf.
        injection Hf as <- <-. eapply fold_no_change; eauto. }
    rewrite (bind_ok _ _ _ _ _
               (new_series_bound _ _ _ _ _ _ _ _ _ Hit Ht1)) in Hf.
    erewrite optional_loop_fresh in Hf.
    + injection Hf as <- <-. rewrite Hsd. eapply fold_created; eauto.
    + simpl. apply lookup_insert_eq.
    + reflexivity.
Qed.

(** ** The body never completes *)

Lemma fold_record_raises md relpath fr :
  exists e, snd (fold_record md relpath fr) = Raise e.
Proof.
  destruct (fold_record md relpath fr) as [fr' r] eqn:Hf.
  destruct (fold_record_outcome _ _ _ _ _ Hf); simpl; eauto.
Qed.

Lemma fold_record_not_ok md relpath fr fr' :
  fold_record md relpath fr <> (fr', Ok tt).
Proof.
  intros Hf. destruct (fold_record_raises md relpath fr) as [e He].
  rewrite Hf in He. discriminate.
Qed.


Lemma enters_yields g fr md relpath fr0 :
  enters g fr md relpath fr0 -> In (md, relpath) (yields g).
Proof. induction 1; simpl; auto. Qed.

(** An exception of the body ends the loop. *)
Lemma consume_enters g fr log md relpath fr0 fr1 e :
  enters g fr md relpath fr0 ->
  fold_record md relpath fr0 = (fr1, Raise e) ->
  exists log', consume g fr log = (fr1, log', Raise e).
Proof.
  intros Hen. revert log.
  induction Hen as [md relpath k fr|l k fr md relpath fr0 Hen IH
                   |md' relpath' k fr fr' md relpath fr0 Hf Hen IH];
    intros log Hr; simpl.
  - rewrite Hr. eauto.
  - apply IH. exact Hr.
  - rewrite Hf. apply IH. exact Hr.
Qed.

(** ** Ordering of datetimes *)

Lemma lex_compare_refl l : lex_compare l l = Eq.
Proof. induction l as [|x l IH]; simpl; [|rewrite Z.compare_refl]; auto. Qed.

Lemma datetime_le_refl t : datetime_le t t.
Proof.
  unfold datetime_le, datetime_compare. rewrite lex_compare_refl. discriminate.
Qed.

(** ** The body and the aggregates of the other series *)

Lemma fold_record_other md relpath fr uid' :
  oget "SeriesInstanceUID" md <> Some uid' ->
  series_dict (fst (fold_record md relpath fr)) !! uid' = series_dict fr !! uid'.
Proof.
  intros Hne. destruct (fold_record md relpath fr) as [fr' r] eqn:Hf.
  destruct (fold_record_outcome _ _ _ _ _ Hf)
    as [k Hk|fr1 r1 e Hreq Hts|uid iuid sn sd it tags t fr1 H1
       |uid sn s c fr1 e H1]; simpl.
  - reflexivity.
  - pose proof (compute_timestamp_series_dict md fr) as Hsd.
    rewrite Hts in Hsd. simpl in Hsd. now rewrite Hsd.
  - apply lookup_insert_ne. congruence.
  - apply lookup_insert_ne. congruence.
Qed.

Lemma fold_record_ordered md relpath fr :
  timestamps_ordered (series_dict fr) ->
  timestamps_ordered (series_dict (fst (fold_record md relpath fr))).
Proof.
  intros Hinv. destruct (fold_record md relpath fr) as [fr' r] eqn:Hf.
  destruct (fold_record_outcome _ _ _ _ _ Hf)
    as [k Hk|fr1 r1 e Hreq Hts|uid iuid sn sd it tags t fr1 H1 H2 H3 H4 H5 Hit
                                 Hreq Hts Ht Hnew
       |uid sn s c fr1 e H1 H3 Hreq Hts Hs Hc]; simpl.
  - exact Hinv.
  - pose proof (compute_timestamp_series_dict md fr) as Hsd.
    rewrite Hts in Hsd. simpl in Hsd. now rewrite Hsd.
  - intros u s Hu. destruct (decide (uid = u)) as [->|Hne].
    + rewrite lookup_insert_eq in Hu. injection Hu as <-.
      exists t, t. repeat split; try reflexivity. apply datetime_le_refl.
    + rewrite lookup_insert_ne in Hu by exact Hne. eauto.
  - intros u s' Hu. destruct (decide (uid = u)) as [->|Hne].
    + rewrite lookup_insert_eq in Hu. injection Hu as <-.
      destruct (Hinv _ _ Hs) as (tmin & tmax & Hmin & Hmax & Hle).
      exists tmin, tmax. simpl.
      rewrite !oget_oset_ne by discriminate. auto.
    + rewrite lookup_insert_ne in Hu by exact Hne. eauto.
Qed.

(** ** The walker *)

Section WalkerFacts.

Variables rm rm' : string * list string -> bool -> result (odict value).

Lemma handle_read_error_IOError msg relpath k :
  handle_read_error (IOError msg) relpath k
  = Emit (Log ERROR "cannot read file (%s): %s" [LStr msg; LStr relpath]) k.
Proof. reflexivity. Qed.

(** Any exception that is not an [IOError] reaches the second [except]
    clause, whose class expression cannot be evaluated. *)
Lemma handle_read_error_other e relpath k :
  (forall msg, e <> IOError msg) ->
  handle_read_error e relpath k = Throw (NameError "dicom").
Proof.
  intros Hne. unfold handle_read_error. rewrite dicom_unbound.
  destruct e; try reflexivity. now destruct (Hne msg).
Qed.

Lemma walk_files_ext path force force' root files k k' :
  (forall abspath, ~ is_DICOMDIR abspath ->
                   rm abspath force = rm' abspath force') ->
  k = k' ->
  walk_files rm path force root files k
  = walk_files rm' path force' root files k'.
Proof.
  intros Hrm <-. induction files as [|filename files IH]; simpl; auto.
  destruct (decide (filename = "DICOMDIR")) as [->|Hne]; auto.
  rewrite Hrm, IH; auto.
  unfold is_DICOMDIR, abspath_of. simpl. rewrite last_snoc. congruence.
Qed.

Lemma walk_dirs_ext path force force' n triples :
  (forall abspath, ~ is_DICOMDIR abspath ->
                   rm abspath force = rm' abspath force') ->
  walk_dirs rm path force n triples = walk_dirs rm' path force' n triples.
Proof.
  intros Hrm. revert n.
  induction triples as [|[[root dirs] files] rest IH]; intros n; simpl; auto.
  apply walk_files_ext; auto.
Qed.

Lemma walk_image_data_ext path force force' t :
  (forall abspath, ~ is_DICOMDIR abspath ->
                   rm abspath force = rm' abspath force') ->
  walk_image_data rm path force t = walk_image_data rm' path force' t.
Proof.
  intros Hrm. unfold walk_image_data. f_equal. now apply walk_dirs_ext.
Qed.

End WalkerFacts.

Section WalkerYields.

Variable rm : string * list string -> bool -> result (odict value).

(** What is yielded comes from a file that is not named DICOMDIR. *)
Lemma walk_files_yields path force root files k md relpath :
  In (md, relpath) (yields (walk_files rm path force root files k)) ->
  (exists filename,
      In filename files /\ filename <> "DICOMDIR" /\
      relpath = relpath_of root filename /\
      rm (abspath_of path root filename) force = Ok md) \/
  In (md, relpath) (yields k).
Proof.
  induction files as [|filename files IH]; simpl; auto.
  destruct (decide (filename = "DICOMDIR")) as [->|Hne].
  - intros H. destruct (IH H) as [(f & Hin & Hf)|Hk]; [left|right]; eauto.
  - simpl.
    destruct (rm (abspath_of path root filename) force) as [md'|e] eqn:Hr.
    + simpl. intros [Heq|H].
      * injection Heq as <- <-. left. exists filename. auto.
      * destruct (IH H) as [(f & Hin & Hf)|Hk]; [left|right]; eauto.
    + intros H.
      assert (Hy : In (md, relpath)
                     (yields (walk_files rm path force root files k))).
      { unfold handle_read_error in H.
        destruct e; simpl in H; try rewrite dicom_unbound in H;
          simpl in H; tauto. }
      destruct (IH Hy) as [(f & Hin & Hf)|Hk]; [left|right]; eauto.
Qed.

Lemma walk_dirs_yields path force n triples md relpath :
  In (md, relpath) (yields (walk_dirs rm path force n triples)) ->
  exists root dirs files filename,
    In (root, dirs, files) triples /\ In filename files /\
    filename <> "DICOMDIR" /\ relpath = relpath_of root filename /\
    rm (abspath_of path root filename) force = Ok md.
Proof.
  revert n.
  induction triples as [|[[root dirs] files] rest IH]; intros n; simpl.
  - tauto.
  - intros H. apply walk_files_yields in H.
    destruct H as [(f & Hin & Hne & Hrel & Hrm)|H].
    + exists root, dirs, files, f. auto.
    + destruct (IH _ H) as (root' & dirs' & files' & f & Hin & Hrest).
      exists root', dirs', files', f. auto.
Qed.

End WalkerYields.

(** ** The invariants along the loop *)

Lemma consume_other uid' g fr log :
  (forall md relpath,
      In (md, relpath) (yields g) -> oget "SeriesInstanceUID" md <> Some uid') ->
  series_dict (fst (fst (consume g fr log))) !! uid' = series_dict fr !! uid'.
Proof.
  revert fr log.
  induction g as [|l k IH|[md relpath] k IH|e]; intros fr log Hy; simpl; auto.
  assert (Ho : series_dict (fst (fold_record md relpath fr)) !! uid'
               = series_dict fr !! uid')
    by (apply fold_record_other, (Hy md relpath); now left).
  destruct (fold_record md relpath fr) as [fr' [[]|e]] eqn:Hf; simpl in *.
  - rewrite IH; [exact Ho|]. intros md' relpath' Hin. apply (Hy md' relpath'). now right.
  - exact Ho.
Qed.

Lemma consume_ordered g fr log :
  timestamps_ordered (series_dict fr) ->
  timestamps_ordered (series_dict (fst (fst (consume g fr log)))).
Proof.
  revert fr log.
  induction g as [|l k IH|[md relpath] k IH|e]; intros fr log Hinv; simpl; auto.
  pose proof (fold_record_ordered md relpath fr Hinv) as Ho.
  destruct (fold_record md relpath fr) as [fr' [[]|e]] eqn:Hf; simpl in *; auto.
Qed.

(** * The properties of the specification *)

(** The decoder is asked for a forced read even when the caller passes
    [force=False]: the file without header is decoded, and its record,
    which has no acquisition date, is the first of the run. *)
Example report_forces_headerless :
  read ("/data", ["headerless"]) false
  = Raise (InvalidDicomError "File is missing DICOM header") /\
  report_image_data read "/data" false (Node ["headerless"] [])
  = Raise (UnboundLocalError "timestamp").
Proof. split; reflexivity. Qed.

(** Lines 98-107 do not reset [timestamp].  On the frame left by the record
    of a.dcm, the body for a record of another series without acquisition
    date would store the timestamp of a.dcm.  No run gets there: the body
    never completes ([fold_record_not_ok]), so it is entered once per run,
    with [timestamp] unbound ([enters_first]). *)
Remark timestamp_not_reset :
  timestamp frame_a = Some (DateTime (Date 2020 1 1) (Time 0 0 0 0)) /\
  oget "AcquisitionDate" record_c = None /\
  (series_dict (fst (fold_record record_c "c.dcm" frame_a)) !! VStr "S2")
    ≫= (fun s => oget "MinAcquisitionDateTime" (metadata s))
  = Some (MDateTime (DateTime (Date 2020 1 1) (Time 0 0 0 0))).
Proof. repeat split; reflexivity. Qed.

(** C1.  Two decodable files of one series: the claim has the aggregator
    increment the three tables for the second, so that the [SeriesNumber]
    table sums to 2.  The run raises while folding the first file (line
    136); the aggregate it leaves behind counts one file.  Entered for the
    second file on that aggregate, the body increments [SeriesNumber] (line
    120) and raises [NameError] at line 121: the two other tables are not
    incremented. *)
Theorem same_series_tables_not_incremented :
  report_image_data read "/data" false tree_ab = Raise no_update /\
  (series_dict (fst (fst (report_image_data_run read "/data" false tree_ab)))
     !! VStr "S1")
  = Some (mkSeries
            (fresh_metadata (VInt 1) (VStr "T1")
               [VStr "ORIGINAL"; VStr "PRIMARY"]
               (DateTime (Date 2020 1 1) (Time 0 0 0 0))
               (DateTime (Date 2020 1 1) (Time 0 0 0 0)))
            {[ VStr "I1" := "a.dcm" ]}) /\
  (series_dict (fst (fst (report_image_data_run read "/data" false tree_ab)))
     !! VStr "S1") ≫= series_total "SeriesNumber"
  = Some 1%nat /\
  fold_record record_b "b.dcm" frame_a
  = (mkFrame
       {[ VStr "S1" :=
            mkSeries
              [ ("SeriesNumber", MCounter {[ VInt 1 := 2%nat ]});
                ("SeriesDescription", MCounter {[ VStr "T1" := 1%nat ]});
                ("ImageType",
                 MCounter {[ VStr "ORIGINAL" := 1%nat;
                             VStr "PRIMARY" := 1%nat ]});
                ("MinAcquisitionDateTime",
                 MDateTime (DateTime (Date 2020 1 1) (Time 0 0 0 0)));
                ("MaxAcquisitionDateTime",
                 MDateTime (DateTime (Date 2020 1 1) (Time 0 0 0 0))) ]
              {[ VStr "I1" := "a.dcm" ]} ]}
       (Some (DateTime (Date 2020 1 3) (Time 0 0 0 0))),
     Raise (NameError "SeriesDescription")).
Proof. repeat split; reflexivity. Qed.

(** C2.  A file the decoder rejects with [InvalidDicomError], or with
    [AttributeError], ends the walk: the second [except] clause names
    [dicom], which is unbound, and the [NameError] leaves the walker and
    [report_image_data].  Only an [IOError] is logged and skipped. *)
Theorem decode_failure_ends_walk :
  walk_image_data read "/data" true tree_bad
  = Emit (Log INFO "start processing files: %s" [LStr "/data"])
      (Emit (Log DEBUG "read file: %s" [LStr "unreadable"])
         (Emit (Log ERROR "cannot read file (%s): %s"
                  [LStr "Permission denied"; LStr "unreadable"])
            (Emit (Log DEBUG "read file: %s" [LStr "garbage"])
               (Throw (NameError "dicom"))))) /\
  report_image_data read "/data" false tree_bad = Raise (NameError "dicom") /\
  walk_image_data read "/data" true tree_incomplete
  = Emit (Log INFO "start processing files: %s" [LStr "/data"])
      (Emit (Log DEBUG "read file: %s" [LStr "incomplete"])
         (Throw (NameError "dicom"))) /\
  report_image_data read "/data" false tree_incomplete
  = Raise (NameError "dicom").
Proof. repeat split; reflexivity. Qed.

(** C4.  Two files of one series with the same [SOPInstanceUID]: the claim
    has the path of the later file replace the path of the earlier one.  The
    run raises while folding the first file and the table keeps the earlier
    path.  Entered for the second file on that aggregate, the body raises
    at line 121, before line 128; and line 128 names the attribute [files],
    which a [Series] does not have. *)
Theorem later_path_not_stored :
  report_image_data read "/data" false tree_aa = Raise no_update /\
  (images <$> (series_dict
                 (fst (fst (report_image_data_run read "/data" false tree_aa)))
                 !! VStr "S1"))
  = Some {[ VStr "I1" := "a.dcm" ]} /\
  snd (fold_record record_a' "sub/a2.dcm" frame_a)
  = Raise (NameError "SeriesDescription") /\
  (images <$> (series_dict (fst (fold_record record_a' "sub/a2.dcm" frame_a))
                 !! VStr "S1"))
  = Some {[ VStr "I1" := "a.dcm" ]} /\
  (forall s, Series_getattr s "files"
             = Raise (AttributeError
                        "'Series' object has no attribute 'files'")).
Proof.
  repeat split; reflexivity.
Qed.

(** C5.  A record with the additional field [Manufacturer]: the claim has
    the aggregator count it in a table of that name.  For the first record
    of a series the loop of line 131 runs over the dictionary built at line
    111, not over the record: no table is created and line 136 raises.  For
    a record of a known series line 121 raises before the loop. *)
Theorem additional_field_not_counted :
  oget "Manufacturer" record_a = Some (VStr "ACME") /\
  fold_record record_a "a.dcm" initial_frame = (frame_a, Raise no_update) /\
  (oget "Manufacturer" <$> (metadata <$> (series_dict frame_a !! VStr "S1")))
  = Some None /\
  report_image_data read "/data" false tree_a = Raise no_update /\
  snd (fold_record record_b "b.dcm" frame_a)
  = Raise (NameError "SeriesDescription") /\
  (oget "Manufacturer"
     <$> (metadata <$> (series_dict (fst (fold_record record_b "b.dcm" frame_a))
                          !! VStr "S1")))
  = Some None.
Proof. repeat split; reflexivity. Qed.

(** C6.  [minTimestamp <= maxTimestamp] in every aggregate: when it holds in
    the frame the loop starts with (as in the empty initial frame), it holds
    in the frame the loop ends with, whatever the generator yields and
    however the loop ends. *)
Theorem timestamps_stay_ordered g fr log :
  timestamps_ordered (series_dict fr) ->
  timestamps_ordered (series_dict (fst (fst (consume g fr log)))).
Proof. apply consume_ordered. Qed.

Lemma timestamps_stay_ordered_witness :
  timestamps_ordered (series_dict initial_frame) /\
  timestamps_ordered
    (series_dict
       (fst (fst (consume (walk_image_data read "/data" true tree_ab)
                    initial_frame [])))) /\
  is_Some (series_dict
             (fst (fst (consume (walk_image_data read "/data" true tree_ab)
                          initial_frame []))) !! VStr "S1").
Proof.
  assert (H0 : timestamps_ordered (series_dict initial_frame)).
  { intros uid s Hs. simpl in Hs. rewrite lookup_empty in Hs. discriminate. }
  split; [exact H0|]. split.
  - apply (timestamps_stay_ordered
             (walk_image_data read "/data" true tree_ab) initial_frame [] H0).
  - eexists. reflexivity.
Defined.

(** C7.  A file named DICOMDIR is never decoded: the walk, and with it the
    run and the result of [report_image_data], are the same for two
    decoders that differ on such files only; and no pair the walker yields
    comes from such a file. *)
Theorem DICOMDIR_skipped rm rm' path force t :
  (forall abspath f, ~ is_DICOMDIR abspath -> rm abspath f = rm' abspath f) ->
  walk_image_data rm path force t = walk_image_data rm' path force t /\
  report_image_data_run rm path force t
  = report_image_data_run rm' path force t /\
  report_image_data rm path force t = report_image_data rm' path force t /\
  (forall md relpath,
      In (md, relpath) (yields (walk_image_data rm path force t)) ->
      exists root filename,
        relpath = relpath_of root filename /\ filename <> "DICOMDIR" /\
        rm (abspath_of path root filename) force = Ok md).
Proof.
  intros Hrm.
  assert (Hw : forall f, walk_image_data rm path f t
                         = walk_image_data rm' path f t)
    by (intros f; apply walk_image_data_ext; auto).
  split; [apply Hw|].
  assert (Hrun : report_image_data_run rm path force t
                 = report_image_data_run rm' path force t)
    by (unfold report_image_data_run; now rewrite Hw).
  split; [exact Hrun|]. split.
  - unfold report_image_data. now rewrite Hrun.
  - intros md relpath Hin. unfold walk_image_data in Hin. simpl in Hin.
    apply walk_dirs_yields in Hin.
    destruct Hin as (root & dirs & files & f & _ & _ & Hne & Hrel & Hdec).
    exists root, f. repeat split; assumption.
Qed.

Lemma DICOMDIR_skipped_witness :
  read ("/data", ["DICOMDIR"]) true <> read' ("/data", ["DICOMDIR"]) true /\
  walk_image_data read "/data" true tree_dicomdir
  = walk_image_data read' "/data" true tree_dicomdir /\
  report_image_data read "/data" true tree_dicomdir
  = report_image_data read' "/data" true tree_dicomdir.
Proof.
  split; [discriminate|].
  assert (Hrm : forall abspath f,
             ~ is_DICOMDIR abspath -> read abspath f = read' abspath f).
  { intros abspath f Hn. unfold read'. now rewrite decide_False. }
  destruct (DICOMDIR_skipped read read' "/data" true tree_dicomdir Hrm)
    as (Hw & _ & Hr & _).
  split; [exact Hw|exact Hr].
Defined.

(** C8.  A record that reaches the body without one of the five required
    fields: the [KeyError] of the first missing field leaves the body, the
    loop and [report_image_data]; the caller gets the exception and no
    mapping. *)
Theorem missing_required_field_aborts rm path force t md relpath fr0 k :
  enters (walk_image_data rm path true t) initial_frame md relpath fr0 ->
  first_missing md = Some k ->
  fold_record md relpath fr0 = (fr0, Raise (KeyError k)) /\
  snd (report_image_data_run rm path force t) = Raise (KeyError k) /\
  report_image_data rm path force t = Raise (KeyError k).
Proof.
  intros Hen Hk.
  assert (Hf : fold_record md relpath fr0 = (fr0, Raise (KeyError k))).
  { destruct (fold_record md relpath fr0) as [fr' r] eqn:Hf.
    destruct (fold_record_outcome _ _ _ _ _ Hf); congruence. }
  split; [exact Hf|].
  destruct (consume_enters _ _ [] _ _ _ _ _ Hen Hf) as [log' Hc].
  unfold report_image_data, report_image_data_run. rewrite Hc. auto.
Qed.

Lemma missing_required_field_aborts_witness :
  enters (walk_image_data read "/data" true tree_d) initial_frame
    record_d "d.dcm" initial_frame /\
  first_missing record_d = Some "SeriesNumber" /\
  report_image_data read "/data" false tree_d
  = Raise (KeyError "SeriesNumber").
Proof.
  assert (Hen : enters (walk_image_data read "/data" true tree_d)
                  initial_frame record_d "d.dcm" initial_frame)
    by (repeat constructor).
  assert (Hk : first_missing record_d = Some "SeriesNumber") by reflexivity.
  split; [exact Hen|]. split; [exact Hk|].
  apply (missing_required_field_aborts read "/data" false tree_d record_d
           "d.dcm" initial_frame "SeriesNumber" Hen Hk).
Defined.

(** C9.  [report_image_data] walks with [force=True] whatever its own
    [force] argument is: its run is the loop over
    [walk_image_data(path, force=True)], it never asks the decoder for an
    unforced read, and its result is the same for both values of
    [force]. *)
Theorem report_always_forces rm path force t :
  report_image_data_run rm path force t
  = consume (walk_image_data rm path true t) initial_frame [] /\
  report_image_data rm path force t
  = report_image_data (fun abspath _ => rm abspath true) path force t /\
  report_image_data rm path true t = report_image_data rm path false t.
Proof.
  split; [reflexivity|]. split; [|reflexivity].
  unfold report_image_data, report_image_data_run.
  now rewrite (walk_image_data_ext rm (fun abspath _ => rm abspath true)
                 path true true t).
Qed.

(** C10.  A record is folded into the aggregate stored under its own
    [SeriesInstanceUID] only: whatever the generator yields and however the
    loop ends, the entry of [series_dict] under an identifier that no
    yielded record bears is what it was when the loop started. *)
Theorem other_series_untouched uid' g fr log :
  (forall md relpath,
      In (md, relpath) (yields g) ->
      oget "SeriesInstanceUID" md <> Some uid') ->
  series_dict (fst (fst (consume g fr log))) !! uid' = series_dict fr !! uid'.
Proof. apply consume_other. Qed.

Lemma other_series_untouched_witness :
  series_dict frame_a !! VStr "S2" = None /\
  series_dict
    (fst (fst (consume (Yield (record_b, "b.dcm") Stop) frame_a [])))
    !! VStr "S2" = None /\
  series_dict
    (fst (fst (consume (Yield (record_b, "b.dcm") Stop) frame_a [])))
    !! VStr "S1" <> series_dict frame_a !! VStr "S1".
Proof.
  split; [reflexivity|]. split.
  - rewrite (other_series_untouched (VStr "S2")
               (Yield (record_b, "b.dcm") Stop) frame_a []).
    + reflexivity.
    + intros md relpath [Heq|[]]. injection Heq as <- _. discriminate.
  - discriminate.
Defined.

(** * Further properties of the walker *)

Section WalkOutput.

Variable rm : string * list string -> bool -> result (odict value).
Variable path : string.
Variable force : bool.

Lemma listed_files_cons root dirs files rest :
  listed_files ((root, dirs, files) :: rest)
  = (map (fun f => (root, f)) files ++ listed_files rest)%list.
Proof. reflexivity. Qed.

(** Whatever the decoder does, a walk ends normally or with the
    [NameError] of the second [except] clause. *)
Lemma handle_read_error_end e relpath k :
  (exists msg, e = IOError msg) \/
  handle_read_error e relpath k = Throw (NameError "dicom").
Proof.
  destruct e; try (right; apply handle_read_error_other; discriminate).
  left. eauto.
Qed.

(** The files of one directory, when none of them is rejected. *)
Lemma walk_files_output root files k :
  (forall filename e,
      In filename files -> filename <> "DICOMDIR" ->
      rm (abspath_of path root filename) force = Raise e ->
      exists msg, e = IOError msg) ->
  yields (walk_files rm path force root files k)
  = (flat_map (file_yields rm path force) (map (fun f => (root, f)) files)
       ++ yields k)%list /\
  gen_logs (walk_files rm path force root files k)
  = (flat_map (file_logs rm path force) (map (fun f => (root, f)) files)
       ++ gen_logs k)%list /\
  gen_end (walk_files rm path force root files k) = gen_end k.
Proof.
  induction files as [|filename files IH]; intros Hok; simpl; auto.
  destruct IH as (IHy & IHl & IHe).
  { intros f e Hin. apply Hok. now right. }
  destruct (decide (filename = "DICOMDIR")) as [->|Hne]; [auto|].
  simpl. destruct (rm (abspath_of path root filename) force) as [md|e] eqn:Hr.
  - simpl. rewrite IHy, IHl, IHe. auto.
  - destruct (Hok filename e (or_introl eq_refl) Hne Hr) as [msg ->].
    simpl. rewrite IHy, IHl, IHe. auto.
Qed.

Lemma decodes_or_IOError_cons root dirs files rest :
  decodes_or_IOError rm path force ((root, dirs, files) :: rest) ->
  (forall filename e,
      In filename files -> filename <> "DICOMDIR" ->
      rm (abspath_of path root filename) force = Raise e ->
      exists msg, e = IOError msg) /\
  decodes_or_IOError rm path force rest.
Proof.
  intros H. split.
  - intros f e Hin. apply H. rewrite listed_files_cons. apply in_or_app. left.
    apply in_map_iff. eauto.
  - intros r f e Hin. apply H. rewrite listed_files_cons. apply in_or_app.
    now right.
Qed.

Lemma walk_dirs_output n triples :
  decodes_or_IOError rm path force triples ->
  yields (walk_dirs rm path force n triples)
  = flat_map (file_yields rm path force) (listed_files triples) /\
  gen_logs (walk_dirs rm path force n triples)
  = (flat_map (file_logs rm path force) (listed_files triples)
       ++ [Log INFO "processed %d files in %.2f s: %s"
             [LCount (n + length (listed_files triples));
              LElapsed; LStr path]])%list /\
  gen_end (walk_dirs rm path force n triples) = None.
Proof.
  revert n.
  induction triples as [|[[root dirs] files] rest IH]; intros n Hok.
  - simpl. rewrite Nat.add_0_r. auto.
  - apply decodes_or_IOError_cons in Hok. destruct Hok as [Hfiles Hrest].
    simpl walk_dirs.
    destruct (walk_files_output root files
                (walk_dirs rm path force (n + length files) rest) Hfiles)
      as (Hy & Hl & He).
    destruct (IH (n + length files)%nat Hrest) as (IHy & IHl & IHe).
    rewrite Hy, Hl, He, IHy, IHl, IHe, listed_files_cons.
    rewrite !flat_map_app, length_app, length_map, <- !app_assoc.
    rewrite Nat.add_assoc. auto.
Qed.

(** Each listed file is yielded, logged as unreadable, or skipped as
    DICOMDIR. *)
Lemma listed_files_partition (l : list (list string * string)) :
  length l
  = (length (flat_map (file_yields rm path force) l)
     + length (filter is_error_entry (flat_map (file_logs rm path force) l))
     + length (filter (fun rf => bool_decide (snd rf = "DICOMDIR")) l))%nat.
Proof.
  induction l as [|[root f] l IH]; [reflexivity|].
  cbn [flat_map]. rewrite !length_app, filter_app, length_app.
  rewrite filter_cons. simpl snd.
  set (ny := length (flat_map _ l)) in *.
  set (ne := length (filter _ (flat_map _ l))) in *.
  set (nd := length (filter _ l)) in *.
  unfold file_yields, file_logs.
  destruct (decide (f = "DICOMDIR")) as [->|Hne].
  - rewrite bool_decide_eq_true_2 by reflexivity.
    rewrite decide_True by exact I. simpl. lia.
  - rewrite bool_decide_eq_false_2 by exact Hne.
    rewrite decide_False by (intros []).
    destruct (rm (abspath_of path root f) force); simpl; lia.
Qed.

(** A rejected file ends the walk of its directory, whatever follows. *)
Lemma walk_files_rejected root pre filename post e k k' :
  filename <> "DICOMDIR" ->
  rm (abspath_of path root filename) force = Raise e ->
  (forall msg, e <> IOError msg) ->
  walk_files rm path force root (pre ++ filename :: post) k
  = walk_files rm path force root (pre ++ [filename]) k'.
Proof.
  intros Hne Hr He. induction pre as [|f pre IH]; simpl.
  - rewrite !decide_False by exact Hne. rewrite Hr.
    now rewrite !handle_read_error_other.
  - now rewrite IH.
Qed.

Lemma walk_files_end root files k :
  gen_end (walk_files rm path force root files k) = gen_end k \/
  gen_end (walk_files rm path force root files k) = Some (NameError "dicom").
Proof.
  induction files as [|filename files IH]; simpl; auto.
  destruct (decide (filename = "DICOMDIR")); auto. simpl.
  destruct (rm (abspath_of path root filename) force) as [md|e]; simpl; auto.
  destruct (handle_read_error_end e (relpath_of root filename)
              (walk_files rm path force root files k)) as [[msg ->]|H];
    [|rewrite H]; simpl; auto.
Qed.

Lemma walk_dirs_end n triples :
  gen_end (walk_dirs rm path force n triples) = None \/
  gen_end (walk_dirs rm path force n triples) = Some (NameError "dicom").
Proof.
  revert n. induction triples as [|[[root dirs] files] rest IH]; intros n.
  - simpl. auto.
  - simpl. destruct (walk_files_end root files
                       (walk_dirs rm path force (n + length files) rest))
      as [H|H]; rewrite H; auto.
Qed.

(** A walk that ends normally has met no rejected file. *)
Lemma walk_files_normal root files k :
  gen_end (walk_files rm path force root files k) = None ->
  gen_end k = None /\
  forall filename e,
    In filename files -> filename <> "DICOMDIR" ->
    rm (abspath_of path root filename) force = Raise e ->
    exists msg, e = IOError msg.
Proof.
  induction files as [|filename files IH]; simpl.
  - intros ->. split; [reflexivity|]. intros ? ? [].
  - destruct (decide (filename = "DICOMDIR")) as [->|Hne].
    + intros H. destruct (IH H) as [Hk Hf]. split; [exact Hk|].
      intros f e [<-|Hin] Hn; [now destruct Hn|]. now apply Hf.
    + simpl.
      destruct (rm (abspath_of path root filename) force) as [md|e] eqn:Hr.
      * simpl. intros H. destruct (IH H) as [Hk Hf]. split; [exact Hk|].
        intros f e [<-|Hin] Hn Hr'; [congruence|]. now apply (Hf f).
      * destruct (handle_read_error_end e (relpath_of root filename)
                    (walk_files rm path force root files k)) as [[msg ->]|Hh].
        -- simpl. intros H. destruct (IH H) as [Hk Hf]. split; [exact Hk|].
           intros f e [<-|Hin] Hn Hr'.
           ++ rewrite Hr in Hr'. injection Hr' as <-. eauto.
           ++ now apply (Hf f).
        -- rewrite Hh. simpl. discriminate.
Qed.

Lemma walk_dirs_normal n triples :
  gen_end (walk_dirs rm path force n triples) = None ->
  decodes_or_IOError rm path force triples.
Proof.
  revert n. induction triples as [|[[root dirs] files] rest IH]; intros n.
  - intros _ r f e [].
  - simpl. intros H. apply walk_files_normal in H. destruct H as [Hk Hf].
    specialize (IH _ Hk). intros r f e Hin.
    rewrite listed_files_cons in Hin. apply in_app_or in Hin.
    destruct Hin as [Hin|Hin].
    + apply in_map_iff in Hin. destruct Hin as (f' & Heq & Hin).
      injection Heq as <- <-. now apply Hf.
    + now apply IH.
Qed.

End WalkOutput.

(** ** Counters *)

Lemma counter_total_insert (c : gmap value nat) v n :
  c !! v = None -> counter_total (<[v := n]> c) = (n + counter_total c)%nat.
Proof.
  intros Hv. unfold counter_total. apply map_fold_insert_L; [|exact Hv].
  intros. lia.
Qed.

Lemma counter_total_delete (c : gmap value nat) v n :
  c !! v = Some n -> counter_total c = (n + counter_total (delete v c))%nat.
Proof.
  intros Hv. unfold counter_total.
  apply (map_fold_delete_L (fun _ n acc => (n + acc)%nat) 0%nat v n c);
    [|exact Hv].
  intros. lia.
Qed.

Lemma counter_total_count (c : gmap value nat) v :
  counter_total (<[v := S (default 0%nat (c !! v))]> c) = S (counter_total c).
Proof.
  destruct (c !! v) as [n|] eqn:Hv; simpl.
  - rewrite <- (insert_delete_eq c).
    rewrite counter_total_insert by apply lookup_delete_eq.
    rewrite (counter_total_delete c v n Hv). lia.
  - now rewrite counter_total_insert.
Qed.

(** Counting [items] adds [length items] to the total of a table. *)
Lemma counter_total_update items (c : gmap value nat) :
  counter_total (counter_update c items)
  = (counter_total c + length items)%nat.
Proof.
  unfold counter_update. revert c.
  induction items as [|v items IH]; intros c; simpl; [lia|].
  rewrite IH, counter_total_count. lia.
Qed.

Lemma counter_total_Counter items :
  counter_total (Counter items) = length items.
Proof. unfold Counter. now rewrite counter_total_update. Qed.

(** ** The loop and the first pair *)

Lemma consume_first g fr log md relpath rest :
  yields g = (md, relpath) :: rest ->
  exists log',
    consume g fr log
    = (fst (fold_record md relpath fr), log', snd (fold_record md relpath fr)).
Proof.
  revert log.
  induction g as [|l k IH|[md' relpath'] k IH|e]; intros log Hy;
    try discriminate Hy; simpl in *.
  - apply IH. exact Hy.
  - injection Hy as -> -> _.
    destruct (fold_record md relpath fr) as [fr' [[]|e]] eqn:Hf.
    + now apply fold_record_not_ok in Hf.
    + eauto.
Qed.

Lemma consume_nothing g fr log :
  yields g = [] ->
  consume g fr log
  = (fr, (log ++ gen_logs g)%list,
     match gen_end g with None => Ok tt | Some e => Raise e end).
Proof.
  revert log.
  induction g as [|l k IH|[md relpath] k IH|e]; intros log Hy; simpl in *.
  - now rewrite app_nil_r.
  - rewrite IH by exact Hy. now rewrite <- app_assoc.
  - discriminate.
  - now rewrite app_nil_r.
Qed.

Lemma well_formed_first_missing md uid iuid sn sd tags :
  well_formed md uid iuid sn sd tags -> first_missing md = None.
Proof.
  intros [H1 H2 H3 H4 (it & H5 & _)].
  unfold first_missing, required_fields, ocontains. simpl.
  now rewrite H1, H2, H3, H4, H5.
Qed.

(** The body up to the test of line 110, for a well-formed record. *)
Lemma fold_record_well_formed md relpath fr uid iuid sn sd tags :
  well_formed md uid iuid sn sd tags ->
  exists it,
    iterate it = Ok tags /\
    fold_record md relpath fr
    = (compute_timestamp md ;;
       known <- series_known uid ;;
       metadata <-
         (if negb known
          then new_series uid iuid sn sd it relpath
          else update_series md uid iuid sn sd it relpath) ;;
       keys <- metadata_keys metadata ;;
       for_each keys (optional_metadata uid metadata)) fr.
Proof.
  intros [H1 H2 H3 H4 (it & H5 & Hit)]. exists it. split; [exact Hit|].
  unfold fold_record.
  rewrite (bind_ok _ _ _ _ _ (getitem_some _ _ _ _ H1)).
  rewrite (bind_ok _ _ _ _ _ (getitem_some _ _ _ _ H2)).
  rewrite (bind_ok _ _ _ _ _ (getitem_some _ _ _ _ H3)).
  rewrite (bind_ok _ _ _ _ _ (getitem_some _ _ _ _ H4)).
  now rewrite (bind_ok _ _ _ _ _ (getitem_some _ _ _ _ H5)).
Qed.

Lemma series_known_run uid fr :
  series_known uid fr
  = (fr, Ok (bool_decide (is_Some (series_dict fr !! uid)))).
Proof. reflexivity. Qed.

(** A well-formed record of a series that is not in [series_dict], on a
    frame where lines 98-107 succeed. *)
Lemma fold_record_new md relpath fr fr1 uid iuid sn sd tags :
  well_formed md uid iuid sn sd tags ->
  compute_timestamp md fr = (fr1, Ok tt) ->
  series_dict fr !! uid = None ->
  fold_record md relpath fr
  = match timestamp fr1 with
    | Some t =>
        (mkFrame (<[uid := mkSeries (fresh_metadata sn sd tags t t)
                             {[ iuid := relpath ]}]> (series_dict fr))
           (Some t),
         Raise no_update)
    | None => (fr1, Raise (UnboundLocalError "timestamp"))
    end.
Proof.
  intros Hwf Hts Hnew.
  destruct (fold_record_well_formed md relpath fr _ _ _ _ _ Hwf)
    as (it & Hit & ->).
  rewrite (bind_ok _ _ _ _ _ Hts).
  pose proof (compute_timestamp_series_dict md fr) as Hsd.
  rewrite Hts in Hsd. simpl in Hsd.
  rewrite (bind_ok _ _ _ _ _ (series_known_run uid fr1)).
  rewrite Hsd, Hnew.
  rewrite bool_decide_eq_false_2 by (intros [? ?]; discriminate).
  simpl negb. cbv iota.
  destruct (timestamp fr1) as [t|] eqn:Ht1.
  - rewrite (bind_ok _ _ _ _ _
               (new_series_bound _ _ _ _ _ _ _ _ _ Hit Ht1)).
    erewrite optional_loop_fresh.
    + now rewrite Hsd.
    + simpl. apply lookup_insert_eq.
    + reflexivity.
  - now rewrite (bind_raise _ _ _ _ _
                   (new_series_unbound _ _ _ _ _ _ _ _ Hit Ht1)).
Qed.

(** * Further properties of [walk_image_data] *)

Lemma walk_image_data_output rm path force t :
  decodes_or_IOError rm path force (os_walk [] t) ->
  yields (walk_image_data rm path force t)
  = flat_map (file_yields rm path force) (listed_files (os_walk [] t)) /\
  gen_logs (walk_image_data rm path force t)
  = (Log INFO "start processing files: %s" [LStr path]
       :: flat_map (file_logs rm path force) (listed_files (os_walk [] t))
       ++ [Log INFO "processed %d files in %.2f s: %s"
             [LCount (length (listed_files (os_walk [] t)));
              LElapsed; LStr path]])%list /\
  gen_end (walk_image_data rm path force t) = None.
Proof.
  intros Hok. unfold walk_image_data. simpl.
  destruct (walk_dirs_output rm path force 0%nat _ Hok) as (Hy & Hl & He).
  rewrite Hy, Hl, He. auto.
Qed.

(** X1.  When the decoder returns a record or raises [IOError] on every
    listed file that is not named DICOMDIR, the walk ends normally and
    yields one pair per decoded file, in the order [os.walk] lists the
    files, with the path of the file below the walked directory. *)
Theorem walk_yields_every_decoded_file rm path force t :
  decodes_or_IOError rm path force (os_walk [] t) ->
  gen_end (walk_image_data rm path force t) = None /\
  yields (walk_image_data rm path force t)
  = flat_map (file_yields rm path force) (listed_files (os_walk [] t)).
Proof.
  intros Hok.
  destruct (walk_image_data_output rm path force t Hok) as (Hy & _ & He).
  auto.
Qed.

Lemma tree_mixed_decodes :
  decodes_or_IOError read "/data" true (os_walk [] tree_mixed).
Proof.
  intros root f e Hin Hne Hr. simpl in Hin.
  repeat (destruct Hin as [Heq|Hin];
          [injection Heq as <- <-; try (now destruct Hne);
           try discriminate Hr; injection Hr as <-; eauto|]).
  destruct Hin.
Qed.

Lemma walk_yields_every_decoded_file_witness :
  gen_end (walk_image_data read "/data" true tree_mixed) = None /\
  yields (walk_image_data read "/data" true tree_mixed)
  = [(record_a, "a.dcm"); (record_b, "sub/b.dcm")].
Proof.
  destruct (walk_yields_every_decoded_file read "/data" true tree_mixed
              tree_mixed_decodes) as [He Hy].
  split; [exact He|]. rewrite Hy. reflexivity.
Defined.

(** X2.  Under the same condition the log of a walk is: the start entry;
    for each listed file not named DICOMDIR a DEBUG entry with its path,
    followed by one ERROR entry with the reason and the path when the file
    cannot be read; then the closing entry, whose count is the number of
    listed files.  A file named DICOMDIR leaves no entry. *)
Theorem walk_log rm path force t :
  decodes_or_IOError rm path force (os_walk [] t) ->
  gen_logs (walk_image_data rm path force t)
  = (Log INFO "start processing files: %s" [LStr path]
       :: flat_map (file_logs rm path force) (listed_files (os_walk [] t))
       ++ [Log INFO "processed %d files in %.2f s: %s"
             [LCount (length (listed_files (os_walk [] t)));
              LElapsed; LStr path]])%list.
Proof.
  intros Hok.
  now destruct (walk_image_data_output rm path force t Hok) as (_ & Hl & _).
Qed.

Lemma walk_log_witness :
  gen_logs (walk_image_data read "/data" true tree_mixed)
  = [ Log INFO "start processing files: %s" [LStr "/data"];
      Log DEBUG "read file: %s" [LStr "unreadable"];
      Log ERROR "cannot read file (%s): %s"
        [LStr "Permission denied"; LStr "unreadable"];
      Log DEBUG "read file: %s" [LStr "a.dcm"];
      Log DEBUG "read file: %s" [LStr "sub/b.dcm"];
      Log INFO "processed %d files in %.2f s: %s"
        [LCount 5; LElapsed; LStr "/data"] ].
Proof.
  rewrite (walk_log read "/data" true tree_mixed tree_mixed_decodes).
  reflexivity.
Defined.

(** X3.  The count of the closing log entry is the number of files listed,
    the skipped ones included: it is the number of yielded pairs plus the
    number of ERROR entries plus the number of files named DICOMDIR. *)
Theorem walk_count rm path force t :
  decodes_or_IOError rm path force (os_walk [] t) ->
  last (gen_logs (walk_image_data rm path force t))
  = Some (Log INFO "processed %d files in %.2f s: %s"
            [LCount
               (length (yields (walk_image_data rm path force t))
                + length (filter is_error_entry
                            (gen_logs (walk_image_data rm path force t)))
                + length (filter
                            (fun rf => bool_decide (snd rf = "DICOMDIR"))
                            (listed_files (os_walk [] t))));
             LElapsed; LStr path]).
Proof.
  intros Hok.
  destruct (walk_image_data_output rm path force t Hok) as (Hy & Hl & _).
  rewrite Hy, Hl.
  set (logs := flat_map _ _).
  assert (Hf : forall a b (l : list log_entry),
             is_error_entry a = false -> is_error_entry b = false ->
             filter is_error_entry (a :: l ++ [b])
             = filter is_error_entry l).
  { intros a b l Ha Hb. rewrite filter_cons, decide_False
      by (rewrite Ha; intros []).
    rewrite filter_app, (filter_cons _ b), decide_False
      by (rewrite Hb; intros []).
    rewrite filter_nil. apply app_nil_r. }
  rewrite Hf by reflexivity. subst logs.
  rewrite <- listed_files_partition.
  rewrite app_comm_cons. apply last_snoc.
Qed.

Lemma walk_count_witness :
  last (gen_logs (walk_image_data read "/data" true tree_mixed))
  = Some (Log INFO "processed %d files in %.2f s: %s"
            [LCount (2 + 1 + 2); LElapsed; LStr "/data"]).
Proof.
  rewrite (walk_count read "/data" true tree_mixed tree_mixed_decodes).
  reflexivity.
Defined.

(** X4.  A walk ends normally exactly when the decoder returns a record or
    raises [IOError] on every listed file not named DICOMDIR; otherwise it
    ends with the [NameError] of the name [dicom], whatever exception the
    decoder raised. *)
Theorem walk_end rm path force t :
  (gen_end (walk_image_data rm path force t) = None <->
   decodes_or_IOError rm path force (os_walk [] t)) /\
  (gen_end (walk_image_data rm path force t) = None \/
   gen_end (walk_image_data rm path force t) = Some (NameError "dicom")).
Proof.
  unfold walk_image_data. simpl. split; [split|].
  - apply walk_dirs_normal.
  - intros Hok. now destruct (walk_dirs_output rm path force 0%nat _ Hok)
      as (_ & _ & He).
  - apply walk_dirs_end.
Qed.

(** X5.  A file the decoder rejects with another exception than [IOError]
    is the last file read: the walk is the same as if the directory ended
    with that file and had no sub-directories, and it ends with the
    [NameError]. *)
Theorem walk_stops_at_rejected_file rm path force pre filename post dirs e :
  filename <> "DICOMDIR" ->
  rm (abspath_of path [] filename) force = Raise e ->
  (forall msg, e <> IOError msg) ->
  walk_image_data rm path force (Node (pre ++ filename :: post) dirs)
  = walk_image_data rm path force (Node (pre ++ [filename]) []) /\
  gen_end (walk_image_data rm path force (Node (pre ++ filename :: post) dirs))
  = Some (NameError "dicom").
Proof.
  intros Hne Hr He.
  assert (Heq : walk_image_data rm path force
                  (Node (pre ++ filename :: post) dirs)
                = walk_image_data rm path force (Node (pre ++ [filename]) [])).
  { unfold walk_image_data. f_equal. simpl.
    now apply walk_files_rejected with (e := e). }
  split; [exact Heq|].
  unfold walk_image_data. cbn [gen_end].
  destruct (walk_dirs_end rm path force 0%nat
              (os_walk [] (Node (pre ++ filename :: post) dirs)))
    as [Hend|Hend]; [|exact Hend].
  exfalso.
  destruct (walk_dirs_normal rm path force _ _ Hend [] filename e)
    as [msg ->]; auto.
  - simpl. apply in_or_app. left. apply in_map_iff. exists filename.
    split; [reflexivity|]. apply in_or_app. right. now left.
  - now destruct (He msg).
Qed.

Lemma walk_stops_at_rejected_file_witness :
  walk_image_data read "/data" true tree_rejected
  = walk_image_data read "/data" true (Node ["unreadable"; "garbage"] []) /\
  gen_end (walk_image_data read "/data" true tree_rejected)
  = Some (NameError "dicom").
Proof.
  apply (walk_stops_at_rejected_file read "/data" true ["unreadable"]
           "garbage" ["a.dcm"] [("sub", Node ["b.dcm"] [])]
           (InvalidDicomError "File is missing DICOM header")).
  - discriminate.
  - reflexivity.
  - discriminate.
Defined.

(** * Further properties of [report_image_data] *)

Lemma first_missing_none md :
  first_missing md = None ->
  exists uid iuid sn sd it,
    oget "SeriesInstanceUID" md = Some uid /\
    oget "SOPInstanceUID" md = Some iuid /\
    oget "SeriesNumber" md = Some sn /\
    oget "SeriesDescription" md = Some sd /\
    oget "ImageType" md = Some it.
Proof.
  unfold first_missing, required_fields, ocontains. simpl.
  destruct (oget "SeriesInstanceUID" md) as [uid|]; [|discriminate].
  destruct (oget "SOPInstanceUID" md) as [iuid|]; [|discriminate].
  destruct (oget "SeriesNumber" md) as [sn|]; [|discriminate].
  destruct (oget "SeriesDescription" md) as [sd|]; [|discriminate].
  destruct (oget "ImageType" md) as [it|]; [|discriminate].
  intros _. exists uid, iuid, sn, sd, it. auto.
Qed.

Lemma flat_map_file_yields_unreadable rm path force
    (l : list (list string * string)) :
  (forall root filename,
      In (root, filename) l -> filename <> "DICOMDIR" ->
      exists msg, rm (abspath_of path root filename) force
                  = Raise (IOError msg)) ->
  flat_map (file_yields rm path force) l = [].
Proof.
  induction l as [|[root f] l IH]; intros Hall; [reflexivity|].
  cbn [flat_map].
  rewrite IH by (intros r f' Hin Hn; apply Hall; [now right|exact Hn]).
  unfold file_yields. destruct (decide (f = "DICOMDIR")) as [|Hne]; auto.
  destruct (Hall root f (or_introl eq_refl) Hne) as [msg ->]. reflexivity.
Qed.

(** X6.  [report_image_data] returns a mapping only when the walk yields
    nothing and ends normally, and the mapping is then empty: a run that
    folds a record ends with an exception. *)
Theorem report_returns_only_empty rm path force t d :
  report_image_data rm path force t = Ok d ->
  d = ∅ /\
  yields (walk_image_data rm path true t) = [] /\
  gen_end (walk_image_data rm path true t) = None.
Proof.
  unfold report_image_data, report_image_data_run.
  destruct (yields (walk_image_data rm path true t)) as [|[md relpath] rest]
    eqn:Hy.
  - rewrite (consume_nothing _ _ _ Hy).
    destruct (gen_end (walk_image_data rm path true t)); [discriminate|].
    intros H. injection H as <-. auto.
  - destruct (consume_first _ initial_frame [] _ _ _ Hy) as [log' ->].
    destruct (fold_record_raises md relpath initial_frame) as [e ->].
    discriminate.
Qed.

Lemma tree_unreadable_fails root filename :
  In (root, filename) (listed_files (os_walk [] tree_unreadable)) ->
  filename <> "DICOMDIR" ->
  exists msg, read (abspath_of "/data" root filename) true
              = Raise (IOError msg).
Proof.
  intros Hin Hne. simpl in Hin.
  repeat (destruct Hin as [Heq|Hin];
          [injection Heq as <- <-; try (now destruct Hne); eexists;
           reflexivity|]).
  destruct Hin.
Qed.

Lemma report_returns_only_empty_witness :
  report_image_data read "/data" false tree_unreadable = Ok ∅ /\
  yields (walk_image_data read "/data" true tree_unreadable) = [].
Proof.
  assert (H : report_image_data read "/data" false tree_unreadable = Ok ∅)
    by reflexivity.
  split; [exact H|].
  apply (report_returns_only_empty read "/data" false tree_unreadable ∅ H).
Defined.

(** X7.  When no listed file can be read (each one is named DICOMDIR or
    makes the forced decoder raise [IOError]; a tree without files is the
    extreme case), [report_image_data] returns the empty mapping and the
    whole log of the walk has been written. *)
Theorem report_nothing_readable rm path force t :
  (forall root filename,
      In (root, filename) (listed_files (os_walk [] t)) ->
      filename <> "DICOMDIR" ->
      exists msg, rm (abspath_of path root filename) true
                  = Raise (IOError msg)) ->
  report_image_data rm path force t = Ok ∅ /\
  snd (fst (report_image_data_run rm path force t))
  = gen_logs (walk_image_data rm path true t).
Proof.
  intros Hall.
  assert (Hok : decodes_or_IOError rm path true (os_walk [] t)).
  { intros root f e Hin Hne Hr. destruct (Hall root f Hin Hne) as [msg Hm].
    rewrite Hm in Hr. injection Hr as <-. eauto. }
  destruct (walk_image_data_output rm path true t Hok) as (Hy & _ & He).
  assert (Hnil : yields (walk_image_data rm path true t) = []).
  { rewrite Hy. now apply flat_map_file_yields_unreadable. }
  unfold report_image_data, report_image_data_run.
  rewrite (consume_nothing _ _ _ Hnil), He. auto.
Qed.

Lemma report_nothing_readable_witness :
  report_image_data read "/data" false tree_unreadable = Ok ∅ /\
  snd (fst (report_image_data_run read "/data" false tree_unreadable))
  = [ Log INFO "start processing files: %s" [LStr "/data"];
      Log DEBUG "read file: %s" [LStr "unreadable"];
      Log ERROR "cannot read file (%s): %s"
        [LStr "Permission denied"; LStr "unreadable"];
      Log DEBUG "read file: %s" [LStr "sub/unreadable"];
      Log ERROR "cannot read file (%s): %s"
        [LStr "Permission denied"; LStr "sub/unreadable"];
      Log INFO "processed %d files in %.2f s: %s"
        [LCount 3; LElapsed; LStr "/data"] ].
Proof.
  destruct (report_nothing_readable read "/data" false tree_unreadable
              tree_unreadable_fails) as [Hr Hl].
  split; [exact Hr|]. rewrite Hl. reflexivity.
Defined.

Lemma report_first rm path force t md relpath rest :
  yields (walk_image_data rm path true t) = (md, relpath) :: rest ->
  exists e,
    fold_record md relpath initial_frame
    = (fst (fst (report_image_data_run rm path force t)), Raise e) /\
    report_image_data rm path force t = Raise e.
Proof.
  intros Hy. unfold report_image_data, report_image_data_run.
  destruct (consume_first _ initial_frame [] _ _ _ Hy) as [log' ->].
  destruct (fold_record md relpath initial_frame) as [fr' r] eqn:Hf.
  destruct (fold_record_raises md relpath initial_frame) as [e He].
  rewrite Hf in He. simpl in *. subst r. eauto.
Qed.

(** X8.  The run ends with the first pair the walk yields: the frame it
    leaves and the exception the caller gets are those of the body on that
    pair from the initial frame; the files after it are not folded. *)
Theorem report_stops_at_first_record rm path force t md relpath rest :
  yields (walk_image_data rm path true t) = (md, relpath) :: rest ->
  exists e,
    fold_record md relpath initial_frame
    = (fst (fst (report_image_data_run rm path force t)), Raise e) /\
    report_image_data rm path force t = Raise e.
Proof. apply report_first. Qed.

Lemma report_stops_at_first_record_witness :
  yields (walk_image_data read "/data" true tree_mixed)
  = [(record_a, "a.dcm"); (record_b, "sub/b.dcm")] /\
  exists e,
    fold_record record_a "a.dcm" initial_frame
    = (fst (fst (report_image_data_run read "/data" false tree_mixed)),
       Raise e) /\
    report_image_data read "/data" false tree_mixed = Raise e.
Proof.
  assert (Hy : yields (walk_image_data read "/data" true tree_mixed)
               = [(record_a, "a.dcm"); (record_b, "sub/b.dcm")])
    by reflexivity.
  split; [exact Hy|].
  apply (report_stops_at_first_record read "/data" false tree_mixed
           record_a "a.dcm" [(record_b, "sub/b.dcm")] Hy).
Defined.

(** X9.  A well-formed record of a series that is not yet in
    [series_dict], on a frame where lines 98-107 succeed and [timestamp] is
    bound afterwards: the body stores a new aggregate under the record's
    series identifier, whose [SeriesNumber] and [SeriesDescription] tables
    count one value each, whose [ImageType] table counts one per tag, whose
    interval is [timestamp, timestamp] and whose image table has the one
    entry of the record; then line 136 raises [AttributeError]. *)
Theorem new_series_aggregate md relpath fr fr1 t uid iuid sn sd tags :
  well_formed md uid iuid sn sd tags ->
  compute_timestamp md fr = (fr1, Ok tt) ->
  timestamp fr1 = Some t ->
  series_dict fr !! uid = None ->
  fold_record md relpath fr
  = (mkFrame (<[uid := mkSeries (fresh_metadata sn sd tags t t)
                         {[ iuid := relpath ]}]> (series_dict fr)) (Some t),
     Raise no_update) /\
  series_total "SeriesNumber"
    (mkSeries (fresh_metadata sn sd tags t t) {[ iuid := relpath ]})
  = Some 1%nat /\
  series_total "SeriesDescription"
    (mkSeries (fresh_metadata sn sd tags t t) {[ iuid := relpath ]})
  = Some 1%nat /\
  series_total "ImageType"
    (mkSeries (fresh_metadata sn sd tags t t) {[ iuid := relpath ]})
  = Some (length tags).
Proof.
  intros Hwf Hts Ht Hnew.
  rewrite (fold_record_new md relpath fr fr1 _ _ _ _ _ Hwf Hts Hnew), Ht.
  split; [reflexivity|].
  unfold series_total, fresh_metadata. simpl.
  now rewrite !counter_total_Counter.
Qed.

Lemma record_e_well_formed :
  well_formed record_e (VStr "S2") (VStr "I6") (VInt 2) (VStr "T2")
    [VStr "DERIVED"; VStr "SECONDARY"].
Proof. split; try reflexivity. eexists. split; reflexivity. Qed.

Lemma new_series_aggregate_witness :
  fold_record record_e "e.dcm" frame_known
  = (mkFrame
       (<[VStr "S2" :=
            mkSeries
              (fresh_metadata (VInt 2) (VStr "T2")
                 [VStr "DERIVED"; VStr "SECONDARY"]
                 (DateTime (Date 2020 2 2) (Time 10 30 0 0))
                 (DateTime (Date 2020 2 2) (Time 10 30 0 0)))
              {[ VStr "I6" := "e.dcm" ]}]> (series_dict frame_known))
       (Some (DateTime (Date 2020 2 2) (Time 10 30 0 0))),
     Raise no_update) /\
  series_total "ImageType"
    (mkSeries
       (fresh_metadata (VInt 2) (VStr "T2")
          [VStr "DERIVED"; VStr "SECONDARY"]
          (DateTime (Date 2020 2 2) (Time 10 30 0 0))
          (DateTime (Date 2020 2 2) (Time 10 30 0 0)))
       {[ VStr "I6" := "e.dcm" ]})
  = Some 2%nat.
Proof.
  destruct (new_series_aggregate record_e "e.dcm" frame_known
              (mkFrame (series_dict frame_known)
                 (Some (DateTime (Date 2020 2 2) (Time 10 30 0 0))))
              (DateTime (Date 2020 2 2) (Time 10 30 0 0))
              (VStr "S2") (VStr "I6") (VInt 2) (VStr "T2")
              [VStr "DERIVED"; VStr "SECONDARY"]
              record_e_well_formed eq_refl eq_refl eq_refl)
    as (Hf & _ & _ & Hi).
  split; [exact Hf|exact Hi].
Defined.

(** X10.  What the caller gets when the first pair of the walk is a
    well-formed record on which lines 98-107 do not raise: [AttributeError]
    (line 136) when the record has an [AcquisitionDate], and
    [UnboundLocalError] for [timestamp] (line 115), with nothing stored,
    when it has none. *)
Theorem report_first_record_outcome rm path force t md relpath rest
    uid iuid sn sd tags :
  yields (walk_image_data rm path true t) = (md, relpath) :: rest ->
  well_formed md uid iuid sn sd tags ->
  snd (compute_timestamp md initial_frame) = Ok tt ->
  report_image_data rm path force t
  = Raise (if ocontains "AcquisitionDate" md then no_update
           else UnboundLocalError "timestamp") /\
  (ocontains "AcquisitionDate" md = false ->
   series_dict (fst (fst (report_image_data_run rm path force t))) = ∅).
Proof.
  intros Hy Hwf Hts.
  destruct (report_first rm path force t md relpath rest Hy)
    as (e & Hf & Hr).
  rewrite Hr.
  destruct (compute_timestamp md initial_frame) as [fr1 r1] eqn:Hc.
  simpl in Hts. subst r1.
  rewrite (fold_record_new md relpath initial_frame fr1 _ _ _ _ _ Hwf Hc
             (lookup_empty _)) in Hf.
  unfold ocontains.
  destruct (compute_timestamp_shape md initial_frame)
    as [(r & Hs & Hnone)|(ts & Hs & Hsome)]; rewrite Hc in Hs.
  - injection Hs as -> <-. rewrite (Hnone eq_refl). simpl in Hf.
    injection Hf as Hfr <-. split; [reflexivity|]. intros _.
    now rewrite <- Hfr.
  - injection Hs as ->. destruct Hsome as [d ->]. simpl in Hf.
    injection Hf as _ <-. split; [reflexivity|discriminate].
Qed.

Lemma report_first_record_outcome_witness :
  report_image_data read "/data" false tree_mixed = Raise no_update /\
  report_image_data read "/data" false tree_c
  = Raise (UnboundLocalError "timestamp").
Proof.
  split.
  - apply (report_first_record_outcome read "/data" false tree_mixed
             record_a "a.dcm" [(record_b, "sub/b.dcm")]
             (VStr "S1") (VStr "I1") (VInt 1) (VStr "T1")
             [VStr "ORIGINAL"; VStr "PRIMARY"]).
    + reflexivity.
    + split; try reflexivity. eexists. split; reflexivity.
    + reflexivity.
  - apply (report_first_record_outcome read "/data" false tree_c
             record_c "c.dcm" [(record_a, "a.dcm")]
             (VStr "S2") (VStr "I3") (VInt 2) (VStr "T2") [VStr "DERIVED"]).
    + reflexivity.
    + split; try reflexivity. eexists. split; reflexivity.
    + reflexivity.
Defined.

(** X11.  A well-formed record of a series that is in [series_dict] with
    its [SeriesNumber] and [SeriesDescription] tables, on a frame where
    lines 98-107 do not raise: the body adds one to the total of the
    [SeriesNumber] table and raises [NameError] at line 121; the other
    tables, the interval and the image table of the series are as they
    were. *)
Theorem known_series_record md relpath fr uid iuid sn sd tags s c c' :
  well_formed md uid iuid sn sd tags ->
  snd (compute_timestamp md fr) = Ok tt ->
  series_dict fr !! uid = Some s ->
  oget "SeriesNumber" (metadata s) = Some (MCounter c) ->
  oget "SeriesDescription" (metadata s) = Some (MCounter c') ->
  fold_record md relpath fr
  = (mkFrame
       (<[uid := mkSeries
                   (oset "SeriesNumber" (MCounter (counter_update c [sn]))
                      (metadata s))
                   (images s)]> (series_dict fr))
       (timestamp (fst (compute_timestamp md fr))),
     Raise (NameError "SeriesDescription")) /\
  counter_total (counter_update c [sn]) = S (counter_total c) /\
  (forall k, k <> "SeriesNumber" ->
             oget k (oset "SeriesNumber" (MCounter (counter_update c [sn]))
                       (metadata s))
             = oget k (metadata s)).
Proof.
  intros Hwf Hts Hs Hn Hd. split; [|split].
  - destruct (fold_record_well_formed md relpath fr _ _ _ _ _ Hwf)
      as (it & Hit & ->).
    destruct (compute_timestamp md fr) as [fr1 r1] eqn:Hc.
    simpl in Hts. subst r1. rewrite (bind_ok _ _ _ _ _ Hc).
    pose proof (compute_timestamp_series_dict md fr) as Hsd.
    rewrite Hc in Hsd. simpl in Hsd.
    rewrite (bind_ok _ _ _ _ _ (series_known_run uid fr1)).
    rewrite Hsd, Hs, bool_decide_eq_true_2 by eauto.
    simpl negb. cbv iota.
    assert (Hs1 : series_dict fr1 !! uid = Some s) by now rewrite Hsd.
    rewrite (bind_raise _ _ _ _ _
               (update_series_counted md uid iuid sn sd it relpath fr1 s c c'
                  Hs1 Hn Hd)).
    now rewrite Hsd.
  - rewrite counter_total_update. simpl. lia.
  - intros k Hk. apply oget_oset_ne. congruence.
Qed.

Lemma known_series_record_witness :
  fold_record record_b "b.dcm" frame_known
  = (mkFrame
       {[ VStr "S1" :=
            mkSeries
              [ ("SeriesNumber", MCounter {[ VInt 1 := 2%nat ]});
                ("SeriesDescription", MCounter {[ VStr "T1" := 1%nat ]});
                ("ImageType", MCounter {[ VStr "ORIGINAL" := 1%nat ]});
                ("MinAcquisitionDateTime",
                 MDateTime (DateTime (Date 2020 1 1) (Time 0 0 0 0)));
                ("MaxAcquisitionDateTime",
                 MDateTime (DateTime (Date 2020 1 4) (Time 0 0 0 0))) ]
              {[ VStr "I0" := "first.dcm" ]} ]}
       (Some (DateTime (Date 2020 1 3) (Time 0 0 0 0))),
     Raise (NameError "SeriesDescription")).
Proof.
  destruct (known_series_record record_b "b.dcm" frame_known
              (VStr "S1") (VStr "I2") (VInt 1) (VStr "T1")
              [VStr "ORIGINAL"; VStr "PRIMARY"]
              (mkSeries
                 (fresh_metadata (VInt 1) (VStr "T1") [VStr "ORIGINAL"]
                    (DateTime (Date 2020 1 1) (Time 0 0 0 0))
                    (DateTime (Date 2020 1 4) (Time 0 0 0 0)))
                 {[ VStr "I0" := "first.dcm" ]})
              (Counter [VInt 1]) (Counter [VStr "T1"]))
    as (Hf & _ & _).
  - split; try reflexivity. eexists. split; reflexivity.
  - reflexivity.
  - reflexivity.
  - reflexivity.
  - reflexivity.
  - rewrite Hf. reflexivity.
Defined.

(** X12.  A record with the five required fields whose [AcquisitionDate]
    is not a date: line 102 raises [TypeError] when the record has an
    [AcquisitionTime], line 105 raises [AttributeError] when it has none;
    the frame is left as it was. *)
Theorem ill_typed_date md relpath fr d :
  first_missing md = None ->
  oget "AcquisitionDate" md = Some d ->
  as_date d = None ->
  exists msg,
    fold_record md relpath fr
    = (fr, Raise (if ocontains "AcquisitionTime" md then TypeError msg
                  else AttributeError msg)).
Proof.
  intros Hreq Hd Hnd.
  destruct (first_missing_none md Hreq)
    as (uid & iuid & sn & sd & it & H1 & H2 & H3 & H4 & H5).
  unfold fold_record.
  rewrite (bind_ok _ _ _ _ _ (getitem_some _ _ _ _ H1)).
  rewrite (bind_ok _ _ _ _ _ (getitem_some _ _ _ _ H2)).
  rewrite (bind_ok _ _ _ _ _ (getitem_some _ _ _ _ H3)).
  rewrite (bind_ok _ _ _ _ _ (getitem_some _ _ _ _ H4)).
  rewrite (bind_ok _ _ _ _ _ (getitem_some _ _ _ _ H5)).
  assert (Hc : exists msg,
             compute_timestamp md fr
             = (fr, Raise (if ocontains "AcquisitionTime" md
                           then TypeError msg else AttributeError msg))).
  { unfold compute_timestamp, ocontains. rewrite Hd.
    rewrite (bind_ok _ _ _ _ _ (getitem_some _ _ _ _ Hd)).
    destruct (oget "AcquisitionTime" md) as [tm|] eqn:Ht.
    - rewrite (bind_ok _ _ _ _ _ (getitem_some _ _ _ _ Ht)).
      unfold bind, lift, datetime_combine. rewrite Hnd. eauto.
    - unfold bind, lift.
      destruct d as [[s|n|d0|t0|t0|o]|l]; try discriminate Hnd;
        simpl; eauto. }
  destruct Hc as [msg Hc]. exists msg. now apply bind_raise.
Qed.

Lemma ill_typed_date_witness :
  exists msg,
    fold_record record_text_date "x.dcm" frame_known
    = (frame_known, Raise (AttributeError msg)).
Proof.
  apply (ill_typed_date record_text_date "x.dcm" frame_known (VStr "20200101"));
    reflexivity.
Defined.

(** * The timestamp of a record *)





